(** * Deformable attention over 1-d sequences

    A shallow embedding of [deformable_attention_1d.py].

    Conventions.
    - Python integers (the constructor's keyword arguments, tensor sizes)
      are [Z]; [%] and [//] are Python's floor operations, which agree with
      [Z.modulo] and [Z.div] for a non-zero divisor and raise
      [ZeroDivisionError] for a zero one.
    - Tensor entries are real numbers ([R]): the arithmetic of the program is
      read over the reals, rounding is not modelled, with the exception of
      [nn.Tanh], whose result is rounded to float32.
    - A tensor of rank k is a k-fold nested list, outermost axis first.
    - A Python exception is a value of [exn]; code that may raise returns a
      [result].
    - The tensor library (torch, einops) is not part of the repository; its
      operations are modelled after their documented behaviour, each one next
      to the place that calls it. *)

From Stdlib Require Import Reals ZArith List Bool Lia Lra.
From Stdlib Require Import Zfloor.
Import ListNotations.

Set Implicit Arguments.

(** ** Exceptions *)

Inductive exn : Type :=
| AssertionError
| ZeroDivisionError
| ValueError
| RuntimeError
| IndexError
| EinopsError.

Inductive result (A : Type) : Type :=
| Ok (a : A)
| Raise (e : exn).

Arguments Ok {A} a.
Arguments Raise {A} e.

Definition bind {A B : Type} (m : result A) (k : A -> result B) : result B :=
  match m with
  | Ok a => k a
  | Raise e => Raise e
  end.

Notation "x <- m ;; k" := (bind m (fun x => k))
  (at level 61, m at next level, right associativity).
Notation "m ;;; k" := (bind m (fun _ => k))
  (at level 61, right associativity).

(** [assert b] *)
Definition assert (b : bool) : result unit :=
  if b then Ok tt else Raise AssertionError.

(** [raise e] unless [b] *)
Definition require (b : bool) (e : exn) : result unit :=
  if b then Ok tt else Raise e.

(** ** Helper functions *)

(** [exists(val)]: [val is not None]. *)
Definition exists_ {A : Type} (val : option A) : bool :=
  match val with
  | Some _ => true
  | None => false
  end.

(** [default(val, d)]: [val if exists(val) else d]. *)
Definition default {A : Type} (val : option A) (d : A) : A :=
  if exists_ val
  then match val with
       | Some v => v
       | None => d
       end
  else d.

(** Python's [numer % denom] on integers. *)
Definition py_mod (numer denom : Z) : result Z :=
  if (denom =? 0)%Z then Raise ZeroDivisionError else Ok (numer mod denom)%Z.

(** Python's [numer // denom] on integers. *)
Definition py_floordiv (numer denom : Z) : result Z :=
  if (denom =? 0)%Z then Raise ZeroDivisionError else Ok (numer / denom)%Z.

(** [divisible_by(numer, denom)]: [(numer % denom) == 0]. *)
Definition divisible_by (numer denom : Z) : result bool :=
  r <- py_mod numer denom ;;
  Ok (r =? 0)%Z.

(** ** The constructor of [DeformableAttention1D] *)

(** The keyword arguments of [__init__]. *)
Record Config : Type := {
  dim : Z;
  dim_head : Z;
  heads : Z;
  dropout : R;
  downsample_factor : Z;
  offset_scale : R;
  offset_groups : option Z;
  offset_kernel_size : Z
}.

(** The defaults of the signature: [dim_head = 64], [heads = 8],
    [dropout = 0.], [downsample_factor = 4], [offset_scale = 4],
    [offset_groups = None], [offset_kernel_size = 6]. *)
Definition default_config (d : Z) : Config :=
  {| dim := d; dim_head := 64; heads := 8; dropout := 0;
     downsample_factor := 4; offset_scale := 4; offset_groups := None;
     offset_kernel_size := 6 |}.

(** The two assertions of [__init__], in the order of the source; the value
    is the resolved [offset_groups]. *)
Definition init_asserts (c : Config) : result Z :=
  b1 <- divisible_by (offset_kernel_size c - downsample_factor c) 2 ;;
  assert b1 ;;;
  let offset_groups := default (offset_groups c) (heads c) in
  b2 <- divisible_by (heads c) offset_groups ;;
  assert b2 ;;;
  Ok offset_groups.

(** ** Layers of the tensor library, as the constructor creates them

    Only the hyper-parameters are kept: they decide which inputs a layer
    accepts and the shape of what it returns. *)

(** [nn.Linear(in_features, out_features)] *)
Record Linear : Type := {
  in_features : Z;
  out_features : Z
}.

(** [nn.Conv1d(in_channels, out_channels, kernel_size, groups, stride,
    padding)], dilation 1. *)
Record Conv1d : Type := {
  in_channels : Z;
  out_channels : Z;
  kernel_size : Z;
  groups : Z;
  stride : Z;
  padding : Z
}.

(** [nn.Linear.__init__]: the weight is allocated with
    [torch.empty((out_features, in_features))], which refuses a negative
    size. *)
Definition nn_Linear (i o : Z) : result Linear :=
  require ((0 <=? i) && (0 <=? o))%Z RuntimeError ;;;
  Ok {| in_features := i; out_features := o |}.

(** [nn.Conv1d.__init__]: [groups] must be positive and divide both channel
    counts; the weight [(out_channels, in_channels // groups, kernel_size)]
    is then allocated. *)
Definition nn_Conv1d (i o k g s p : Z) : result Conv1d :=
  require (0 <? g)%Z ValueError ;;;
  require (i mod g =? 0)%Z ValueError ;;;
  require (o mod g =? 0)%Z ValueError ;;;
  require ((0 <=? o) && (0 <=? i / g) && (0 <=? k))%Z RuntimeError ;;;
  Ok {| in_channels := i; out_channels := o; kernel_size := k;
        groups := g; stride := s; padding := p |}.

(** [CPB]: the continuous positional bias network. [mlp] lists the linear
    layers in order; a [ReLU] follows each of them but the last. *)
Record CPB : Type := {
  cpb_heads : Z;
  cpb_offset_groups : Z;
  mlp : list Linear
}.

(** [CPB.__init__(dim, heads, offset_groups, depth)] with the [depth = 2] of
    the only call: [Linear(1, dim)], [depth - 1] times [Linear(dim, dim)],
    then [Linear(dim, heads // offset_groups)]. *)
Definition CPB_init (d h g : Z) : result CPB :=
  l1 <- nn_Linear 1 d ;;
  l2 <- nn_Linear d d ;;
  o <- py_floordiv h g ;;
  l3 <- nn_Linear d o ;;
  Ok {| cpb_heads := h; cpb_offset_groups := g; mlp := [l1; l2; l3] |}.

(** An instance of [DeformableAttention1D]. [to_offsets] is the sequence
    [Rearrange, conv_dw, GELU, conv_pw, Rearrange, Tanh, Scale]; its two
    convolutions and the constant of [Scale] are the fields [conv_dw],
    [conv_pw] and [scale_offsets]. *)
Record DeformableAttention1D : Type := {
  scale : R;
  self_heads : Z;
  self_offset_groups : Z;
  self_downsample_factor : Z;
  conv_dw : Conv1d;
  conv_pw : Conv1d;
  scale_offsets : R;
  rel_pos_bias : CPB;
  self_dropout : R;
  to_q : Linear;
  to_kv : Linear;
  to_out : Linear
}.

(** [dim_head ** -0.5]. Python raises [ZeroDivisionError] at 0. (At a
    negative [dim_head] Python returns a complex number; construction then
    fails at one of the layers below, see [init_inv].) *)
Definition pow_minus_half (x : Z) : result R :=
  if (x =? 0)%Z then Raise ZeroDivisionError else Ok (/ sqrt (IZR x))%R.

(** [nn.Dropout(p)]: [p] must lie in [[0, 1]]. *)
Definition nn_Dropout (p : R) : result R :=
  if Rlt_dec p 0%R then Raise ValueError
  else if Rlt_dec 1%R p then Raise ValueError
  else Ok p.

(** [DeformableAttention1D.__init__]. *)
Definition init (c : Config) : result DeformableAttention1D :=
  offset_groups <- init_asserts c ;;
  let inner_dim := (dim_head c * heads c)%Z in
  scale <- pow_minus_half (dim_head c) ;;
  offset_dims <- py_floordiv inner_dim offset_groups ;;
  dw <- nn_Conv1d offset_dims offset_dims (offset_kernel_size c) offset_dims
          (downsample_factor c)
          ((offset_kernel_size c - downsample_factor c) / 2) ;;
  pw <- nn_Conv1d offset_dims 1 1 1 1 0 ;;
  cpb <- CPB_init (dim c / 4) (heads c) offset_groups ;;
  p <- nn_Dropout (dropout c) ;;
  q <- nn_Linear (dim c) inner_dim ;;
  kv <- nn_Linear (dim c) (inner_dim * 2) ;;
  out <- nn_Linear inner_dim (dim c) ;;
  Ok {| scale := scale;
        self_heads := heads c;
        self_offset_groups := offset_groups;
        self_downsample_factor := downsample_factor c;
        conv_dw := dw;
        conv_pw := pw;
        scale_offsets := offset_scale c;
        rel_pos_bias := cpb;
        self_dropout := p;
        to_q := q;
        to_kv := kv;
        to_out := out |}.

(** ** Shapes

    The shape of a tensor is the list of its sizes. [Shape.forward] follows
    [DeformableAttention1D.forward] statement by statement and computes the
    shape of every intermediate tensor, or the exception of the first
    operation that refuses its operands. *)

Definition shape : Type := list Z.

Module Shape.

Local Open Scope Z_scope.

(** [x.shape[i]] for [i >= 0] and [x.shape[-i-1]]. *)
Definition at_front (x : shape) (i : nat) : result Z :=
  match nth_error x i with
  | Some d => Ok d
  | None => Raise IndexError
  end.

Definition at_back (x : shape) (i : nat) : result Z :=
  at_front (rev x) i.

(** [nn.Linear.forward]: the last axis must have [in_features] entries and
    gets [out_features]. *)
Definition Linear_forward (l : Linear) (x : shape) : result shape :=
  match rev x with
  | d :: batch =>
      require (d =? in_features l) RuntimeError ;;;
      Ok (rev (out_features l :: batch))
  | [] => Raise RuntimeError
  end.

(** The output length of a convolution over [l] positions (dilation 1):
    [floor((l + 2*padding - (kernel_size - 1) - 1) / stride) + 1]. *)
Definition conv_out_len (c : Conv1d) (l : Z) : Z :=
  (l + 2 * padding c - (kernel_size c - 1) - 1) / stride c + 1.

(** [nn.Conv1d.forward] on a batched input [(batch, channels, length)] (the
    only rank [to_offsets] can pass on). Padding must not be negative,
    stride must be positive, the channel axis must have [in_channels]
    entries and the padded length must hold the kernel. *)
Definition Conv1d_forward (c : Conv1d) (x : shape) : result shape :=
  match x with
  | [b; ch; l] =>
      require (0 <=? padding c) RuntimeError ;;;
      require (0 <? stride c) RuntimeError ;;;
      require (ch =? in_channels c) RuntimeError ;;;
      require (kernel_size c <=? l + 2 * padding c) RuntimeError ;;;
      Ok [b; out_channels c; conv_out_len c l]
  | _ => Raise RuntimeError
  end.

(** [Rearrange('b n d -> b d n')] *)
Definition rearrange_bnd_bdn (x : shape) : result shape :=
  match x with
  | [b; n; d] => Ok [b; d; n]
  | _ => Raise EinopsError
  end.

(** [Rearrange('b 1 n -> b n')] *)
Definition rearrange_b1n_bn (x : shape) : result shape :=
  match x with
  | [b; one; n] => require (one =? 1) EinopsError ;;; Ok [b; n]
  | _ => Raise EinopsError
  end.

(** [rearrange(q, 'b n (g d) -> (b g) d n', g = g)] *)
Definition rearrange_group (g : Z) (x : shape) : result shape :=
  match x with
  | [b; n; gd] =>
      require ((0 <? g) && (gd mod g =? 0)) EinopsError ;;;
      Ok [b * g; gd / g; n]
  | _ => Raise EinopsError
  end.

(** [rearrange(kv_feats, '(b g) d n -> b n (g d)', b = b)] *)
Definition rearrange_ungroup (b : Z) (x : shape) : result shape :=
  match x with
  | [bg; d; n] =>
      require ((0 <? b) && (bg mod b =? 0)) EinopsError ;;;
      Ok [b; n; bg / b * d]
  | _ => Raise EinopsError
  end.

(** [rearrange(t, 'b n (h d) -> b h n d', h = h)] *)
Definition rearrange_split_heads (h : Z) (x : shape) : result shape :=
  match x with
  | [b; n; hd] =>
      require ((0 <? h) && (hd mod h =? 0)) EinopsError ;;;
      Ok [b; h; n; hd / h]
  | _ => Raise EinopsError
  end.

(** [rearrange(out, 'b h n d -> b n (h d)')] *)
Definition rearrange_merge_heads (x : shape) : result shape :=
  match x with
  | [b; h; n; d] => Ok [b; n; h * d]
  | _ => Raise EinopsError
  end.

(** [rearrange(bias, '(b g) i j o -> b (g o) i j', g = g)] *)
Definition rearrange_bias (g : Z) (x : shape) : result shape :=
  match x with
  | [bg; i; j; o] =>
      require ((0 <? g) && (bg mod g =? 0)) EinopsError ;;;
      Ok [bg / g; g * o; i; j]
  | _ => Raise EinopsError
  end.

(** Broadcasting of one axis, and of two shapes of the same rank. *)
Definition broadcast_dim (a b : Z) : result Z :=
  if a =? b then Ok a
  else if a =? 1 then Ok b
  else if b =? 1 then Ok a
  else Raise RuntimeError.

Fixpoint broadcast_same_rank (x y : shape) : result shape :=
  match x, y with
  | [], [] => Ok []
  | a :: x', b :: y' =>
      d <- broadcast_dim a b ;;
      r <- broadcast_same_rank x' y' ;;
      Ok (d :: r)
  | _, _ => Raise RuntimeError
  end.

(** Broadcasting aligns the shapes at their last axes and fills the shorter
    one with 1 in front. *)
Definition broadcast (x y : shape) : result shape :=
  let rx := length x in
  let ry := length y in
  broadcast_same_rank (repeat 1 (ry - rx)%nat ++ x)
                      (repeat 1 (rx - ry)%nat ++ y).

(** [self.to_offsets]: [Rearrange('b n d -> b d n')], the depthwise
    convolution, [GELU], the pointwise convolution, [Rearrange('b 1 n -> b
    n')], [Tanh], [Scale]; the three elementwise layers keep the shape. *)
Definition to_offsets (m : DeformableAttention1D) (x : shape) : result shape :=
  x1 <- rearrange_bnd_bdn x ;;
  x2 <- Conv1d_forward (conv_dw m) x1 ;;
  x3 <- Conv1d_forward (conv_pw m) x2 ;;
  rearrange_b1n_bn x3.

(** [normalize_grid] keeps the shape of its argument; [arange.shape[-1]]
    needs one axis at least. *)
Definition normalize_grid (arange : shape) : result shape :=
  at_back arange 0 ;;; Ok arange.

(** [F.grid_sample] on a rank-4 input [(N, C, H_in, W_in)] and a grid
    [(N, H_out, W_out, 2)]; the result is [(N, C, H_out, W_out)]. *)
Definition grid_sample (input grid : shape) : result shape :=
  match input, grid with
  | [n; c; h_in; w_in], [n'; h_out; w_out; two] =>
      require ((n =? n') && (two =? 2) && (0 <? h_in) && (0 <? w_in))
              RuntimeError ;;;
      Ok [n; c; h_out; w_out]
  | _, _ => Raise RuntimeError
  end.

(** [F.pad(grid, (0, 1))]: one more entry at the end of the last axis. *)
Definition pad_last_right (x : shape) : result shape :=
  match rev x with
  | d :: batch => Ok (rev (d + 1 :: batch))
  | [] => Raise RuntimeError
  end.

(** [rearrange(out, '... 1 -> ...')] *)
Definition drop_last_one (x : shape) : result shape :=
  match rev x with
  | d :: batch => require (d =? 1) EinopsError ;;; Ok (rev batch)
  | [] => Raise EinopsError
  end.

(** [grid_sample_1d(feats, grid, ...)] *)
Definition grid_sample_1d (feats grid : shape) : result shape :=
  let grid := grid ++ [1; 1] in
  grid <- pad_last_right grid ;;
  let feats := feats ++ [1] in
  out <- grid_sample feats grid ;;
  drop_last_one out.

(** [CPB.forward(grid_q, grid_kv)] *)
Definition CPB_forward (p : CPB) (grid_q grid_kv : shape) : result shape :=
  match grid_q, grid_kv with
  | [n], [b; j] =>
      pos <- broadcast [1; n; 1; 1] [b; 1; j; 1] ;;
      bias <- fold_left (fun acc l => a <- acc ;; Linear_forward l a)
                        (mlp p) (Ok pos) ;;
      rearrange_bias (cpb_offset_groups p) bias
  | _, _ => Raise EinopsError
  end.

(** [einsum('b h i d, b h j d -> b h i j', q, k)] *)
Definition einsum_qk (q k : shape) : result shape :=
  match q, k with
  | [b; h; i; d], [b'; h'; j; d'] =>
      require ((b =? b') && (h =? h') && (d =? d')) RuntimeError ;;;
      Ok [b; h; i; j]
  | _, _ => Raise RuntimeError
  end.

(** [einsum('b h i j, b h j d -> b h i d', attn, v)] *)
Definition einsum_av (attn v : shape) : result shape :=
  match attn, v with
  | [b; h; i; j], [b'; h'; j'; d] =>
      require ((b =? b') && (h =? h') && (j =? j')) RuntimeError ;;;
      Ok [b; h; i; d]
  | _, _ => Raise RuntimeError
  end.

(** [t.chunk(2, dim = -1)], unpacked into two names: two chunks of
    [ceil(d / 2)] and the rest. *)
Definition chunk2 (x : shape) : result (shape * shape) :=
  match rev x with
  | d :: batch =>
      require (2 <=? d) ValueError ;;;
      Ok (rev ((d + 1) / 2 :: batch), rev (d - (d + 1) / 2 :: batch))
  | [] => Raise IndexError
  end.

(** [sim.amax(dim = -1, keepdim = True)]: the reduced axis must not be
    empty. *)
Definition amax_last (x : shape) : result shape :=
  match rev x with
  | d :: batch => require (0 <? d) IndexError ;;; Ok (rev (1 :: batch))
  | [] => Raise IndexError
  end.

(** [DeformableAttention1D.forward(x, return_vgrid)] *)
Definition forward (m : DeformableAttention1D) (x : shape)
    (return_vgrid : bool) : result (shape * option shape) :=
  let heads := self_heads m in
  b <- at_front x 0 ;;
  n <- at_back x 1 ;;
  q <- Linear_forward (to_q m) x ;;
  grouped_feats <- rearrange_group (self_offset_groups m) q ;;
  offsets <- to_offsets m grouped_feats ;;
  len <- at_back offsets 0 ;;
  let grid := [len] in
  vgrid <- broadcast grid offsets ;;
  vgrid_scaled <- normalize_grid vgrid ;;
  kv_feats <- grid_sample_1d grouped_feats vgrid_scaled ;;
  kv_feats <- rearrange_ungroup b kv_feats ;;
  kv <- Linear_forward (to_kv m) kv_feats ;;
  kv <- chunk2 kv ;;
  let (k, v) := (kv : shape * shape) in
  q <- rearrange_split_heads heads q ;;
  k <- rearrange_split_heads heads k ;;
  v <- rearrange_split_heads heads v ;;
  sim <- einsum_qk q k ;;
  let seq_range := [n] in
  seq_scaled <- normalize_grid seq_range ;;
  bias <- CPB_forward (rel_pos_bias m) seq_scaled vgrid_scaled ;;
  sim <- broadcast sim bias ;;
  mx <- amax_last sim ;;
  sim <- broadcast sim mx ;;
  let attn := sim in
  out <- einsum_av attn v ;;
  out <- rearrange_merge_heads out ;;
  out <- Linear_forward (to_out m) out ;;
  if return_vgrid then Ok (out, Some vgrid) else Ok (out, None).

End Shape.

(** ** Tensor values

    The entries of a tensor are reals; [tensor1] to [tensor4] are the nested
    lists of rank 1 to 4. *)

Local Open Scope R_scope.

Abbreviation tensor1 := (list R).
Abbreviation tensor2 := (list (list R)).
Abbreviation tensor3 := (list (list (list R))).
Abbreviation tensor4 := (list (list (list (list R)))).

Definition sum (xs : tensor1) : R := fold_right Rplus 0 xs.

Definition dot (xs ys : tensor1) : R :=
  sum (map (fun p => fst p * snd p) (combine xs ys)).

(** The size of the last axis of a rank-2 tensor, read off its first row. *)
Definition ncols {A : Type} (t : list (list A)) : nat :=
  match t with
  | [] => 0%nat
  | row :: _ => length row
  end.

(** Exchange the two axes of a rank-2 tensor. *)
Definition transpose (t : tensor2) : tensor2 :=
  map (fun j => map (fun row => nth j row 0) t) (seq 0 (ncols t)).

(** [torch.arange(n)] *)
Definition arange (n : nat) : tensor1 := map INR (seq 0 n).

(** *** [normalize_grid] *)

(** [normalize_grid(arange)] for a tensor of rank 1:
    [n = arange.shape[-1]], then [2.0 * arange / max(n - 1, 1) - 1.0]. *)
Definition normalize_grid (arange : tensor1) : tensor1 :=
  let n := Z.of_nat (length arange) in
  map (fun a => 2 * a / IZR (Z.max (n - 1) 1) - 1) arange.

(** [normalize_grid] on a tensor of rank 2, as [forward] calls it on
    [vgrid]: [shape[-1]] is the length of the rows. *)
Definition normalize_grid2 (vgrid : tensor2) : tensor2 :=
  map normalize_grid vgrid.

(** *** [Scale] and the offset network *)

(** [Scale.forward]: [x * self.scale]. *)
Definition Scale_forward (scale : R) (x : tensor2) : tensor2 :=
  map (map (fun a => a * scale)) x.

(** The binary exponent of a non-zero real: [2^e <= |x| < 2^(e + 1)]. *)
Definition exponent (x : R) : Z := Zfloor (ln (Rabs x) / ln 2).

(** The nearest integer, the even one of two that are equally near. *)
Definition nearest_even (x : R) : Z :=
  let f := Zfloor x in
  if Rlt_dec (x - IZR f) (1 / 2) then f
  else if Rlt_dec (1 / 2) (x - IZR f) then (f + 1)%Z
  else if Z.even f then f else (f + 1)%Z.

(** Rounding to the nearest float32 (24 significant bits, exponents from
    -126), for a real of magnitude below [2^128], where nothing
    overflows. *)
Definition round32 (x : R) : R :=
  if Req_dec_T x 0 then 0
  else
    let e := Z.max (exponent x) (-126) in
    let ulp := powerRZ 2 (e - 23) in
    IZR (nearest_even (x / ulp)) * ulp.

(** [nn.Tanh] on a float32 tensor, the default type: every entry is the
    float32 nearest to its hyperbolic tangent. This is the one place where
    rounding is modelled: it decides whether an offset can reach
    [offset_scale]. *)
Definition Tanh_forward (x : tensor2) : tensor2 :=
  map (map (fun a => round32 (tanh a))) x.

(** The weights of the two convolutions of [to_offsets]: one kernel and
    one bias per channel for the depthwise one, one weight per channel and no
    bias for the pointwise one. *)
Record OffsetWeights : Type := {
  dw_weight : tensor2;
  dw_bias : tensor1;
  pw_weight : tensor1
}.

(** The positions of a kernel of [k] entries moved over [xs] in steps of
    [s]: the kernel is applied as long as it fits. [fuel] bounds the number
    of steps; the length of [xs] is always enough. *)
Fixpoint windows (fuel k s : nat) (xs : tensor1) : list tensor1 :=
  match fuel with
  | O => []
  | S fuel' =>
      if (k <=? length xs)%nat
      then firstn k xs :: windows fuel' k s (skipn s xs)
      else []
  end.

(** Zero padding on both sides. *)
Definition pad_zeros (p : nat) (xs : tensor1) : tensor1 :=
  repeat 0 p ++ xs ++ repeat 0 p.

(** One channel of the depthwise convolution. *)
Definition conv_channel (k s p : nat) (w : tensor1) (b : R) (xs : tensor1)
  : tensor1 :=
  let xp := pad_zeros p xs in
  map (fun win => dot w win + b) (windows (S (length xp)) k s xp).

(** The checks of [nn.Conv1d.forward] on one batch element [(channels,
    length)]. *)
Definition conv_checks (c : Conv1d) (x : tensor2) : result unit :=
  require (0 <=? padding c)%Z RuntimeError ;;;
  require (0 <? stride c)%Z RuntimeError ;;;
  require (Z.of_nat (length x) =? in_channels c)%Z RuntimeError ;;;
  require (kernel_size c <=? Z.of_nat (ncols x) + 2 * padding c)%Z
          RuntimeError.

(** The depthwise convolution ([groups = in_channels = out_channels]) on
    one batch element: channel [c] is convolved with its own kernel. *)
Definition conv_depthwise (c : Conv1d) (w : OffsetWeights) (x : tensor2)
  : result tensor2 :=
  conv_checks c x ;;;
  Ok (map (fun cwb =>
             conv_channel (Z.to_nat (kernel_size c)) (Z.to_nat (stride c))
                          (Z.to_nat (padding c))
                          (fst (snd cwb)) (snd (snd cwb)) (fst cwb))
          (combine x (combine (dw_weight w) (dw_bias w)))).

(** The pointwise convolution ([kernel_size = 1], one output channel, no
    bias) on one batch element: at every position the channels are summed
    with the weights. *)
Definition conv_pointwise (c : Conv1d) (w : OffsetWeights) (x : tensor2)
  : result tensor2 :=
  conv_checks c x ;;;
  Ok [map (fun column => dot (pw_weight w) column) (transpose x)].

(** Run [f] on every element of a batch; the first exception wins. *)
Fixpoint for_each {A B : Type} (f : A -> result B) (xs : list A)
  : result (list B) :=
  match xs with
  | [] => Ok []
  | x :: xs' =>
      y <- f x ;;
      ys <- for_each f xs' ;;
      Ok (y :: ys)
  end.

(** [Rearrange('b 1 n -> b n')] on one batch element. *)
Definition squeeze_channel (x : tensor2) : result tensor1 :=
  match x with
  | [row] => Ok row
  | _ => Raise EinopsError
  end.

Section ToOffsets.

(** [nn.GELU] is the product of its argument with the standard normal
    distribution function; the development does not depend on which function
    it is. *)
Variable gelu : R -> R.

(** [self.to_offsets(grouped_feats)] *)
Definition to_offsets (m : DeformableAttention1D) (w : OffsetWeights)
    (grouped_feats : tensor3) : result tensor2 :=
  let x := map transpose grouped_feats in
  x <- for_each (conv_depthwise (conv_dw m) w) x ;;
  let x := map (map (map gelu)) x in
  x <- for_each (conv_pointwise (conv_pw m) w) x ;;
  x <- for_each squeeze_channel x ;;
  let x := Tanh_forward x in
  Ok (Scale_forward (scale_offsets m) x).

End ToOffsets.

(** *** [grid_sample_1d] *)

(** [F.grid_sample] with [align_corners = False] maps a normalized
    coordinate to pixel units by [((coord + 1) * size - 1) / 2]: -1 and +1
    are the outer edges of the first and of the last pixel. *)
Definition unnormalize (coord : R) (size : nat) : R :=
  ((coord + 1) * INR size - 1) / 2.

(** The entry of an image [(H, W)] at row [iy] and column [ix];
    [padding_mode = 'zeros'] reads 0 outside of the image. *)
Definition pixel (img : tensor2) (iy ix : Z) : R :=
  if ((0 <=? iy) && (iy <? Z.of_nat (length img)) &&
      (0 <=? ix) && (ix <? Z.of_nat (ncols img)))%Z
  then nth (Z.to_nat ix) (nth (Z.to_nat iy) img []) 0
  else 0.

(** [mode = 'bilinear']: the four pixels around [(x, y)], weighted by the
    area of the opposite rectangle. [x] runs along the last axis (width),
    [y] along the axis before it (height). *)
Definition bilinear (img : tensor2) (x y : R) : R :=
  let ix := unnormalize x (ncols img) in
  let iy := unnormalize y (length img) in
  let ix_nw := Zfloor ix in
  let iy_nw := Zfloor iy in
  let ix_ne := (ix_nw + 1)%Z in
  let iy_ne := iy_nw in
  let ix_sw := ix_nw in
  let iy_sw := (iy_nw + 1)%Z in
  let ix_se := (ix_nw + 1)%Z in
  let iy_se := (iy_nw + 1)%Z in
  let nw := (IZR ix_se - ix) * (IZR iy_se - iy) in
  let ne := (ix - IZR ix_sw) * (IZR iy_se - iy) in
  let sw := (IZR ix_ne - ix) * (iy - IZR iy_ne) in
  let se := (ix - IZR ix_nw) * (iy - IZR iy_nw) in
  pixel img iy_nw ix_nw * nw + pixel img iy_ne ix_ne * ne +
  pixel img iy_sw ix_sw * sw + pixel img iy_se ix_se * se.

(** One grid entry [(x, y)]: [grid[..., 0]] is [x], [grid[..., 1]] is [y]. *)
Definition sample_at (img : tensor2) (xy : tensor1) : R :=
  bilinear img (nth 0 xy 0) (nth 1 xy 0).

(** No image of the input has an empty spatial dimension. (A nested list
    without images does not tell the sizes of its images; the check then
    passes.) *)
Definition nonempty_images (input : tensor4) : bool :=
  forallb (forallb (fun img : tensor2 =>
                      (0 <? length img)%nat && (0 <? ncols img)%nat))
          input.

(** [F.grid_sample(input, grid, mode = 'bilinear', padding_mode = 'zeros',
    align_corners = False)] on an input [(N, C, H_in, W_in)] and a grid
    [(N, H_out, W_out, 2)]. Input and grid must have the same batch size,
    and the spatial dimensions of the input must not be empty. *)
Definition grid_sample (input : tensor4) (grid : tensor4) : result tensor4 :=
  require (length input =? length grid)%nat RuntimeError ;;;
  require (nonempty_images input) RuntimeError ;;;
  Ok (map (fun ig =>
             map (fun img => map (map (sample_at img)) (snd ig)) (fst ig))
          (combine input grid)).

(** [F.pad(grid, (0, 1), value = 0.)]: nothing in front of the last axis,
    one 0 behind it. *)
Definition pad_last_right (xy : tensor1) : tensor1 := xy ++ [0].

(** [grid_sample_1d(feats, grid, mode = 'bilinear', padding_mode = 'zeros',
    align_corners = False)] *)
Definition grid_sample_1d (feats : tensor3) (grid : tensor2)
  : result tensor3 :=
  (* rearrange(grid, '... -> ... 1 1') *)
  let grid := map (map (fun v => [[v]])) grid in
  (* F.pad(grid, (0, 1), value = 0.) *)
  let grid := map (map (map pad_last_right)) grid in
  (* rearrange(feats, '... -> ... 1') *)
  let feats := map (map (map (fun a => [a]))) feats in
  out <- grid_sample feats grid ;;
  (* rearrange(out, '... 1 -> ...') *)
  Ok (map (map (map (fun o => nth 0 o 0))) out).

(** No channel of the features has an empty sequence. *)
Definition nonempty_sequences (feats : tensor3) : bool :=
  forallb (forallb (fun ch : tensor1 => (0 <? length ch)%nat)) feats.

(** *** [CPB]: the continuous positional bias *)

(** [torch.sign] *)
Definition sign (x : R) : R :=
  if Rlt_dec 0 x then 1 else if Rlt_dec x 0 then -1 else 0.

(** [torch.sign(pos) * torch.log(pos.abs() + 1)] *)
Definition signed_log (pos : R) : R := sign pos * ln (Rabs pos + 1).

(** The input of the bias network for a query position [p] and a key
    position [q]. *)
Definition rel_pos (p q : R) : R := signed_log (p - q).

(** The parameters of a linear layer: one row of [weight] and one entry of
    [bias] per output. *)
Record LinearW : Type := {
  weight : tensor2;
  bias : tensor1
}.

(** [nn.Linear.forward] on one vector. *)
Definition linear (l : LinearW) (x : tensor1) : tensor1 :=
  map (fun wb => dot (fst wb) x + snd wb) (combine (weight l) (bias l)).

(** [nn.ReLU] *)
Definition relu (x : R) : R := Rmax 0 x.

(** The parameters of [CPB.mlp]: the layers that are followed by a [ReLU],
    then the last one. *)
Record CPBW : Type := {
  hidden : list LinearW;
  last : LinearW
}.

(** [for layer in self.mlp: bias = layer(bias)] on one vector. *)
Definition mlp_forward (w : CPBW) (x : tensor1) : tensor1 :=
  linear (last w) (fold_left (fun acc l => map relu (linear l acc)) (hidden w) x).

(** Cut a list into pieces of [g] entries: the piece [b] holds the entries
    [b * g] to [b * g + g - 1]. *)
Definition chunks {A : Type} (g : nat) (l : list A) : list (list A) :=
  map (fun b => firstn g (skipn (b * g) l)) (seq 0 (length l / g)).

(** ['i j o -> o i j'] on a tensor whose last axis has [o] entries. *)
Definition move_last_first (o : nat) (t : tensor3) : tensor3 :=
  map (fun c => map (map (fun v => nth c v 0)) t) (seq 0 o).

(** [rearrange(bias, '(b g) i j o -> b (g o) i j', g = g)]: the first axis
    is cut into groups of [g]; within a group the axes [g] and [o] are
    merged, [g] being the slower one. *)
Definition rearrange_bias (g o : nat) (t : list tensor3) : result tensor4 :=
  require ((0 <? g)%nat && (length t mod g =? 0)%nat) EinopsError ;;;
  Ok (map (fun grp => concat (map (move_last_first o) grp)) (chunks g t)).

(** [CPB.forward(grid_q, grid_kv)]: [grid_q] has the query positions,
    [grid_kv] one row of key positions per (batch, offset group). *)
Definition CPB_forward (p : CPB) (w : CPBW) (grid_q : tensor1)
    (grid_kv : tensor2) : result tensor4 :=
  (* pos: (b g) i j 1 *)
  let pos := map (fun kv => map (fun qi => map (fun kj => [qi - kj]) kv) grid_q)
                 grid_kv in
  let sl := map (map (map (map signed_log))) pos in
  let out := map (map (map (mlp_forward w))) sl in
  rearrange_bias (Z.to_nat (cpb_offset_groups p)) (length (bias (last w))) out.

(** *** Attention weights *)

(** [sim.amax(dim = -1)] on one row; an empty row is refused. *)
Definition amax (row : tensor1) : result R :=
  match row with
  | [] => Raise IndexError
  | x :: rest => Ok (fold_left Rmax rest x)
  end.

(** [softmax(dim = -1)] on one row. *)
Definition softmax (row : tensor1) : tensor1 :=
  let z := sum (map exp row) in
  map (fun x => exp x / z) row.

(** [nn.Dropout(p)] on one row. The layer returns its input when [p] is 0
    or the module is not in training mode; otherwise the entries whose draw
    in [keep] is [false] are zeroed and the others divided by [1 - p]. *)
Definition Dropout_forward (p : R) (training : bool) (keep : list bool)
    (row : tensor1) : tensor1 :=
  if training then
    if Req_dec_T p 0 then row
    else map (fun kx : bool * R => if fst kx then snd kx / (1 - p) else 0)
             (combine keep row)
  else row.

(** One row of [forward] between the biased similarities and the attention
    weights: [sim - sim.amax(dim = -1, keepdim = True).detach()],
    [sim.softmax(dim = -1)], [self.dropout(attn)]. *)
Definition attention_row (p : R) (training : bool) (keep : list bool)
    (sim : tensor1) : result tensor1 :=
  mx <- amax sim ;;
  let sim := map (fun s => s - mx) sim in
  let attn := softmax sim in
  Ok (Dropout_forward p training keep attn).

(** *** The deformed grid *)

(** [vgrid = grid + offsets] with [grid = torch.arange(offsets.shape[-1])]:
    the base positions [0, 1, ...] are added to every row of offsets. *)
Definition add_grid (offsets : tensor2) : tensor2 :=
  map (fun row =>
         map (fun p => fst p + snd p) (combine (arange (length row)) row))
      offsets.

(** The steps of [forward] from the offsets to the sampling positions:
    [vgrid = grid + offsets], [vgrid_scaled = normalize_grid(vgrid)]. *)
Definition vgrid_scaled (offsets : tensor2) : tensor2 :=
  normalize_grid2 (add_grid offsets).

(** The middle of a sequence: its middle sample when the length is odd,
    the mean of the two middle samples when it is even (0 for no sample). *)
Definition middle (ch : tensor1) : R :=
  let n := length ch in
  if Nat.even n
  then (nth (n / 2 - 1) ch 0 + nth (n / 2) ch 0) / 2
  else nth (n / 2) ch 0.

(** [r] is not an [AssertionError]. *)
Definition no_assertion {A : Type} (r : result A) : Prop :=
  r <> Raise AssertionError.

(** ** Configurations and inputs used in the examples *)

(** The module written out for a configuration whose sizes are all
    positive; [init_positive] shows that [init] returns it. *)
Definition module_of (c : Config) (g : Z) : DeformableAttention1D :=
  let inner_dim := (dim_head c * heads c)%Z in
  let offset_dims := (inner_dim / g)%Z in
  {| scale := / sqrt (IZR (dim_head c));
     self_heads := heads c;
     self_offset_groups := g;
     self_downsample_factor := downsample_factor c;
     conv_dw := {| in_channels := offset_dims; out_channels := offset_dims;
                   kernel_size := offset_kernel_size c;
                   groups := offset_dims;
                   stride := downsample_factor c;
                   padding :=
                     ((offset_kernel_size c - downsample_factor c) / 2)%Z |};
     conv_pw := {| in_channels := offset_dims; out_channels := 1;
                   kernel_size := 1; groups := 1; stride := 1;
                   padding := 0 |};
     scale_offsets := offset_scale c;
     rel_pos_bias :=
       {| cpb_heads := heads c;
          cpb_offset_groups := g;
          mlp := [ {| in_features := 1; out_features := (dim c / 4)%Z |};
                   {| in_features := (dim c / 4)%Z;
                      out_features := (dim c / 4)%Z |};
                   {| in_features := (dim c / 4)%Z;
                      out_features := (heads c / g)%Z |} ] |};
     self_dropout := dropout c;
     to_q := {| in_features := dim c; out_features := inner_dim |};
     to_kv := {| in_features := dim c; out_features := (inner_dim * 2)%Z |};
     to_out := {| in_features := inner_dim; out_features := dim c |} |}.

(** The end-to-end scenario of the specification: [dim = 16],
    [dim_head = 4], [heads = 2], [offset_groups = 1],
    [downsample_factor = 2], [offset_kernel_size = 6], [offset_scale = 4],
    [dropout = 0]; its input has the shape [(1, 8, 16)]. *)
Definition scenario_config : Config :=
  {| dim := 16; dim_head := 4; heads := 2; dropout := 0;
     downsample_factor := 2; offset_scale := 4; offset_groups := Some 1%Z;
     offset_kernel_size := 6 |}.

(** The defaults with [dim = 512]: [inner_dim = 512], eight offset groups
    of 64 channels. *)
Definition default_512 : Config := default_config 512.

(** One head of nine channels, [downsample_factor = 4],
    [offset_kernel_size = 6]. *)
Definition nine_config : Config :=
  {| dim := 9; dim_head := 9; heads := 1; dropout := 0;
     downsample_factor := 4; offset_scale := 4; offset_groups := None;
     offset_kernel_size := 6 |}.

(** One head of two channels, kernel and stride 2. *)
Definition two_config : Config :=
  {| dim := 2; dim_head := 2; heads := 1; dropout := 0;
     downsample_factor := 2; offset_scale := 4; offset_groups := None;
     offset_kernel_size := 2 |}.

Definition two_weights : OffsetWeights :=
  {| dw_weight := [[1; 0]; [0; 1]]; dw_bias := [0; 0]; pw_weight := [1; 1] |}.

(** Grouped features [(b g) d n] of sizes [(1, 2, 2)]. *)
Definition two_feats : tensor3 := [[[1; 2]; [3; 4]]].

(** Two heads that share one offset group, [dim = 4], so that the bias
    network has the widths 1, 1, 1 and 2. *)
Definition shared_config : Config :=
  {| dim := 4; dim_head := 2; heads := 2; dropout := 0;
     downsample_factor := 2; offset_scale := 4; offset_groups := Some 1%Z;
     offset_kernel_size := 2 |}.

Definition shared_weights : CPBW :=
  {| hidden := [ {| weight := [[1]]; bias := [0] |};
                 {| weight := [[1]]; bias := [0] |} ];
     last := {| weight := [[1]; [2]]; bias := [0; 0] |} |}.

(** Two heads with an offset group each ([offset_groups] left at its
    default, [heads]); the bias network has one output. *)
Definition per_head_config : Config :=
  {| dim := 4; dim_head := 2; heads := 2; dropout := 0;
     downsample_factor := 2; offset_scale := 4; offset_groups := None;
     offset_kernel_size := 2 |}.

Definition per_head_weights : CPBW :=
  {| hidden := [ {| weight := [[1]]; bias := [0] |};
                 {| weight := [[1]]; bias := [0] |} ];
     last := {| weight := [[1]]; bias := [0] |} |}.

(** The value of a computation that does not raise. *)
Definition value_of {A : Type} (d : A) (r : result A) : A :=
  match r with
  | Ok a => a
  | Raise _ => d
  end.


(** [ceil(a / b)] for a positive [b], as the specification words the length
    of the offset field. *)
Definition ceil_div (a b : Z) : Z := (- ((- a) / b))%Z.

(** * Properties *)

Unset Implicit Arguments.

(** ** Computations that may raise *)

Lemma bind_Ok {A B : Type} (m : result A) (k : A -> result B) (b : B) :
  bind m k = Ok b -> exists a, m = Ok a /\ k a = Ok b.
Proof.
  destruct m as [a|e]; simpl; intros H.
  - exists a; split; [reflexivity | exact H].
  - discriminate.
Qed.

(** ** The constructor *)

Lemma divisible_by_nonzero (a b : Z) :
  b <> 0%Z -> divisible_by a b = Ok (a mod b =? 0)%Z.
Proof.
  intros Hb. unfold divisible_by, py_mod.
  destruct (Z.eqb_spec b 0) as [E|_]; [contradiction | reflexivity].
Qed.

Lemma divisible_by_zero (a : Z) : divisible_by a 0 = Raise ZeroDivisionError.
Proof. reflexivity. Qed.

Lemma init_asserts_odd (c : Config) :
  ((offset_kernel_size c - downsample_factor c) mod 2 <> 0)%Z ->
  init_asserts c = Raise AssertionError.
Proof.
  intros H. unfold init_asserts.
  rewrite divisible_by_nonzero by discriminate. simpl.
  destruct (Z.eqb_spec ((offset_kernel_size c - downsample_factor c) mod 2) 0)
    as [E|_]; [contradiction | reflexivity].
Qed.

Lemma init_asserts_even (c : Config) :
  ((offset_kernel_size c - downsample_factor c) mod 2 = 0)%Z ->
  init_asserts c =
  (let g := default (offset_groups c) (heads c) in
   b2 <- divisible_by (heads c) g ;; assert b2 ;;; Ok g).
Proof.
  intros H. unfold init_asserts.
  rewrite divisible_by_nonzero by discriminate. simpl.
  rewrite H. reflexivity.
Qed.

Lemma no_assertion_bind {A B : Type} (m : result A) (k : A -> result B) :
  no_assertion m -> (forall a, m = Ok a -> no_assertion (k a)) ->
  no_assertion (bind m k).
Proof.
  unfold no_assertion. intros Hm Hk. destruct m as [a|e]; simpl.
  - apply Hk. reflexivity.
  - intros E. apply Hm. injection E as E. rewrite E. reflexivity.
Qed.

Lemma no_assertion_Ok {A : Type} (a : A) : no_assertion (Ok a).
Proof. unfold no_assertion. discriminate. Qed.

Lemma no_assertion_require (b : bool) (e : exn) :
  e <> AssertionError -> no_assertion (require b e).
Proof.
  unfold no_assertion, require. intros He. destruct b; [discriminate|].
  intros E. injection E as E. contradiction.
Qed.

Lemma no_assertion_py_floordiv (a b : Z) : no_assertion (py_floordiv a b).
Proof.
  unfold no_assertion, py_floordiv. destruct (b =? 0)%Z; discriminate.
Qed.

Lemma no_assertion_nn_Linear (i o : Z) : no_assertion (nn_Linear i o).
Proof.
  unfold nn_Linear. apply no_assertion_bind.
  - apply no_assertion_require. discriminate.
  - intros; apply no_assertion_Ok.
Qed.

Lemma no_assertion_nn_Conv1d (i o k g s p : Z) :
  no_assertion (nn_Conv1d i o k g s p).
Proof.
  unfold nn_Conv1d.
  repeat (apply no_assertion_bind;
          [apply no_assertion_require; discriminate | intros _ _]).
  apply no_assertion_Ok.
Qed.

Lemma no_assertion_CPB_init (d h g : Z) : no_assertion (CPB_init d h g).
Proof.
  unfold CPB_init.
  apply no_assertion_bind; [apply no_assertion_nn_Linear | intros l1 _].
  apply no_assertion_bind; [apply no_assertion_nn_Linear | intros l2 _].
  apply no_assertion_bind; [apply no_assertion_py_floordiv | intros o _].
  apply no_assertion_bind; [apply no_assertion_nn_Linear | intros l3 _].
  apply no_assertion_Ok.
Qed.

Lemma no_assertion_pow_minus_half (x : Z) : no_assertion (pow_minus_half x).
Proof.
  unfold no_assertion, pow_minus_half. destruct (x =? 0)%Z; discriminate.
Qed.

Lemma no_assertion_nn_Dropout (p : R) : no_assertion (nn_Dropout p).
Proof.
  unfold no_assertion, nn_Dropout.
  destruct (Rlt_dec p 0); [discriminate|].
  destruct (Rlt_dec 1 p); discriminate.
Qed.

(** After the two assertions, [__init__] raises no [AssertionError]. *)
Lemma init_after_asserts (c : Config) (g : Z) :
  init_asserts c = Ok g -> no_assertion (init c).
Proof.
  intros H. unfold init. rewrite H. simpl.
  apply no_assertion_bind; [apply no_assertion_pow_minus_half | intros sc _].
  apply no_assertion_bind; [apply no_assertion_py_floordiv | intros od _].
  apply no_assertion_bind; [apply no_assertion_nn_Conv1d | intros dw _].
  apply no_assertion_bind; [apply no_assertion_nn_Conv1d | intros pw _].
  apply no_assertion_bind; [apply no_assertion_CPB_init | intros cpb _].
  apply no_assertion_bind; [apply no_assertion_nn_Dropout | intros p _].
  apply no_assertion_bind; [apply no_assertion_nn_Linear | intros q _].
  apply no_assertion_bind; [apply no_assertion_nn_Linear | intros kv _].
  apply no_assertion_bind; [apply no_assertion_nn_Linear | intros out _].
  apply no_assertion_Ok.
Qed.

(** C10. [__init__] raises [AssertionError], and so returns no module a
    forward call could be made on, when
    [(offset_kernel_size - downsample_factor) % 2 != 0] or when
    [heads % offset_groups != 0] ([offset_groups] being [heads] when it is
    not given); when both remainders are 0 the two assertions pass and no
    [AssertionError] is raised by the rest of the constructor. *)
Theorem init_configuration_error (c : Config) :
  let g := default (offset_groups c) (heads c) in
  let r1 := ((offset_kernel_size c - downsample_factor c) mod 2)%Z in
  (r1 <> 0%Z \/ (g <> 0%Z /\ (heads c mod g)%Z <> 0%Z) ->
   init c = Raise AssertionError /\ forall m, init c <> Ok m) /\
  (r1 = 0%Z -> g <> 0%Z -> (heads c mod g)%Z = 0%Z ->
   init_asserts c = Ok g /\ init c <> Raise AssertionError).
Proof.
  intros g r1. split.
  - intros H.
    assert (E : init_asserts c = Raise AssertionError).
    { destruct (Z.eq_dec r1 0) as [E1|E1].
      - destruct H as [H|[Hg Hh]]; [contradiction|].
        rewrite init_asserts_even by exact E1. simpl. fold g.
        rewrite divisible_by_nonzero by exact Hg. simpl.
        destruct (Z.eqb_spec (heads c mod g) 0) as [E|_];
          [contradiction | reflexivity].
      - apply init_asserts_odd. exact E1. }
    assert (E' : init c = Raise AssertionError).
    { unfold init. rewrite E. reflexivity. }
    split; [exact E' | intros m; rewrite E'; discriminate].
  - intros E1 Hg Hh.
    assert (E : init_asserts c = Ok g).
    { rewrite init_asserts_even by exact E1. simpl. fold g.
      rewrite divisible_by_nonzero by exact Hg. simpl.
      rewrite Hh. reflexivity. }
    split; [exact E | exact (init_after_asserts c g E)].
Qed.

(** X17. With [offset_groups = 0] the value is kept, not replaced by the
    default [heads], and the second check divides by zero: the constructor
    raises [ZeroDivisionError]. *)
Lemma init_offset_groups_zero (c : Config) :
  ((offset_kernel_size c - downsample_factor c) mod 2 = 0)%Z ->
  default (offset_groups c) (heads c) = 0%Z ->
  init c = Raise ZeroDivisionError.
Proof.
  intros E1 Hg. unfold init.
  rewrite init_asserts_even by exact E1. simpl. rewrite Hg. reflexivity.
Qed.

Lemma init_configuration_error_witness :
  (init {| dim := 16; dim_head := 4; heads := 3; dropout := 0;
           downsample_factor := 2; offset_scale := 4;
           offset_groups := Some 2%Z; offset_kernel_size := 6 |}
   = Raise AssertionError) /\
  (init (default_config 512) <> Raise AssertionError).
Proof.
  split.
  - apply (init_configuration_error
             {| dim := 16; dim_head := 4; heads := 3; dropout := 0;
                downsample_factor := 2; offset_scale := 4;
                offset_groups := Some 2%Z; offset_kernel_size := 6 |}).
    right. simpl. split; discriminate.
  - apply (init_configuration_error (default_config 512)); simpl.
    + reflexivity.
    + discriminate.
    + reflexivity.
Defined.

(** ** [normalize_grid] *)

Lemma length_arange (n : nat) : length (arange n) = n.
Proof. unfold arange. rewrite length_map, length_seq. reflexivity. Qed.

Lemma nth_arange (n i : nat) : (i < n)%nat -> nth i (arange n) 0 = INR i.
Proof.
  intros H. unfold arange.
  rewrite (nth_indep _ 0 (INR 0)) by (rewrite length_map, length_seq; exact H).
  rewrite map_nth, seq_nth by exact H. reflexivity.
Qed.

Lemma length_normalize_grid (xs : tensor1) :
  length (normalize_grid xs) = length xs.
Proof. unfold normalize_grid. apply length_map. Qed.

(** The divisor [max(n - 1, 1)] is never 0. *)
Lemma normalize_grid_divisor (n : Z) : 1 <= IZR (Z.max (n - 1) 1).
Proof. apply IZR_le. lia. Qed.

Lemma nth_normalize_grid (xs : tensor1) (i : nat) :
  (i < length xs)%nat ->
  nth i (normalize_grid xs) 0 =
  2 * nth i xs 0 / IZR (Z.max (Z.of_nat (length xs) - 1) 1) - 1.
Proof.
  intros H. unfold normalize_grid.
  set (f := fun a : R => 2 * a / IZR (Z.max (Z.of_nat (length xs) - 1) 1) - 1).
  rewrite (nth_indep _ 0 (f 0)) by (rewrite length_map; exact H).
  rewrite map_nth. reflexivity.
Qed.

(** C3 (as amended). On a grid of length 1 the divisor is [max(0, 1) = 1]
    and a position [a] is mapped to [2 * a - 1]: the only index, 0, is
    mapped to -1. *)
Theorem normalize_grid_length_one (a : R) :
  Z.max (Z.of_nat (length [a]) - 1) 1 = 1%Z /\
  normalize_grid [a] = [2 * a - 1] /\
  normalize_grid (arange 1) = [-1].
Proof.
  split; [reflexivity|]. split.
  - unfold normalize_grid. simpl. change (Z.max 0 1) with 1%Z.
    f_equal. field.
  - unfold normalize_grid, arange. simpl. change (Z.max 0 1) with 1%Z.
    f_equal. field.
Qed.

(** C3 (as stated) fails: the grid of length 1, [arange(1)], is not mapped
    to 0. *)
Lemma normalize_grid_length_one_not_zero :
  length (arange 1) = 1%nat /\ nth 0 (normalize_grid (arange 1)) 0 <> 0.
Proof.
  split; [reflexivity|].
  unfold normalize_grid, arange. simpl. change (Z.max 0 1) with 1%Z. lra.
Qed.

(** C6. For a grid of length [N > 1], that is the positions [arange(N)],
    index 0 is mapped to -1 and index [N - 1] to +1. *)
Theorem normalize_grid_endpoints (N : nat) :
  (1 < N)%nat ->
  nth 0 (normalize_grid (arange N)) 0 = -1 /\
  nth (N - 1) (normalize_grid (arange N)) 0 = 1.
Proof.
  intros HN.
  assert (HZ : Z.max (Z.of_nat N - 1) 1 = Z.of_nat (N - 1)) by lia.
  assert (Hpos : 0 < INR (N - 1)) by (apply lt_0_INR; lia).
  split.
  - rewrite nth_normalize_grid by (rewrite length_arange; lia).
    rewrite nth_arange by lia. rewrite length_arange, HZ, <- INR_IZR_INZ.
    simpl. field. lra.
  - rewrite nth_normalize_grid by (rewrite length_arange; lia).
    rewrite nth_arange by lia. rewrite length_arange, HZ, <- INR_IZR_INZ.
    field. lra.
Qed.

Lemma normalize_grid_endpoints_witness :
  (1 < 5)%nat /\
  nth 0 (normalize_grid (arange 5)) 0 = -1 /\
  nth (5 - 1) (normalize_grid (arange 5)) 0 = 1.
Proof.
  split; [lia | apply (normalize_grid_endpoints 5%nat); lia].
Defined.

(** ** The input of the bias network *)

Lemma sign_opp (x : R) : sign (- x) = - sign x.
Proof.
  unfold sign.
  destruct (Rlt_dec 0 (- x)), (Rlt_dec 0 x), (Rlt_dec (- x) 0), (Rlt_dec x 0);
    lra.
Qed.

Lemma sign_0 : sign 0 = 0.
Proof.
  unfold sign. destruct (Rlt_dec 0 0); [lra|]. reflexivity.
Qed.

Lemma signed_log_opp (x : R) : signed_log (- x) = - signed_log x.
Proof.
  unfold signed_log. rewrite sign_opp, Rabs_Ropp. ring.
Qed.

(** C8. The input of the bias network, [sign(p - q) * log(|p - q| + 1)],
    changes sign when the two positions are exchanged, and is 0 for equal
    positions. *)
Theorem rel_pos_antisymmetric (p q : R) :
  rel_pos p q = - rel_pos q p /\ rel_pos p p = 0.
Proof.
  unfold rel_pos. split.
  - replace (p - q) with (- (q - p)) by ring. apply signed_log_opp.
  - replace (p - p) with 0 by ring. unfold signed_log.
    rewrite sign_0. ring.
Qed.

(** The magnitude is kept: [|f(p, q)| = log(|p - q| + 1)] off the diagonal. *)
Lemma rel_pos_magnitude (p q : R) :
  p <> q -> Rabs (rel_pos p q) = ln (Rabs (p - q) + 1).
Proof.
  intros Hpq. unfold rel_pos, signed_log.
  assert (Hln : 0 <= ln (Rabs (p - q) + 1)).
  { rewrite <- ln_1. destruct (Rabs_pos (p - q)) as [H|H].
    - left. apply ln_increasing; lra.
    - rewrite <- H. rewrite Rplus_0_l. lra. }
  rewrite Rabs_mult, (Rabs_pos_eq _ Hln).
  unfold sign.
  destruct (Rlt_dec 0 (p - q)); [rewrite Rabs_R1; ring|].
  destruct (Rlt_dec (p - q) 0).
  { replace (Rabs (-1)) with 1; [ring|].
    unfold Rabs. destruct (Rcase_abs (-1)); lra. }
  exfalso. apply Hpq. lra.
Qed.

(** ** Attention weights *)

Lemma sum_map_div (z : R) (f : R -> R) (xs : tensor1) :
  sum (map (fun x => f x / z) xs) = sum (map f xs) / z.
Proof.
  induction xs as [|x xs IH]; simpl.
  - unfold Rdiv. ring.
  - rewrite IH. unfold Rdiv. ring.
Qed.

Lemma sum_exp_pos (xs : tensor1) : xs <> [] -> 0 < sum (map exp xs).
Proof.
  induction xs as [|x xs IH]; intros H; [contradiction|]. simpl.
  destruct xs as [|y ys].
  - simpl. pose proof (exp_pos x). lra.
  - assert (0 < sum (map exp (y :: ys))) by (apply IH; discriminate).
    pose proof (exp_pos x). lra.
Qed.

Lemma softmax_nonneg (row : tensor1) (w : R) :
  row <> [] -> In w (softmax row) -> 0 < w.
Proof.
  intros Hne Hin. unfold softmax in Hin. apply in_map_iff in Hin.
  destruct Hin as [x [E _]]. subst w.
  apply Rdiv_lt_0_compat; [apply exp_pos | apply sum_exp_pos; exact Hne].
Qed.

Lemma softmax_sum (row : tensor1) : row <> [] -> sum (softmax row) = 1.
Proof.
  intros Hne. unfold softmax.
  rewrite (sum_map_div (sum (map exp row)) exp row).
  pose proof (sum_exp_pos row Hne). field. lra.
Qed.

Lemma length_softmax (row : tensor1) : length (softmax row) = length row.
Proof. unfold softmax. apply length_map. Qed.

Lemma Dropout_forward_disabled (p : R) (training : bool) (keep : list bool)
    (row : tensor1) :
  training = false \/ p = 0 -> Dropout_forward p training keep row = row.
Proof.
  intros H. unfold Dropout_forward. destruct training; [|reflexivity].
  destruct H as [H|H]; [discriminate|].
  destruct (Req_dec_T p 0) as [_|Hn]; [reflexivity | contradiction].
Qed.

(** C2. With dropout disabled (the module not in training mode, or
    [p = 0]), every non-empty row of biased similarities is turned into
    attention weights that are non-negative, one per sampled key position,
    and sum to 1. *)
Theorem attention_row_distribution (p : R) (training : bool)
    (keep : list bool) (sim : tensor1) :
  sim <> [] ->
  training = false \/ p = 0 ->
  exists attn,
    attention_row p training keep sim = Ok attn /\
    length attn = length sim /\
    (forall w, In w attn -> 0 <= w) /\
    sum attn = 1.
Proof.
  intros Hne Hd. destruct sim as [|s rest]; [contradiction|].
  unfold attention_row. simpl amax. cbv beta iota delta [bind].
  set (mx := fold_left Rmax rest s).
  rewrite Dropout_forward_disabled by exact Hd.
  assert (Hne' : map (fun s0 => s0 - mx) (s :: rest) <> []) by discriminate.
  eexists. split; [reflexivity|]. split; [|split].
  - rewrite length_softmax, length_map. reflexivity.
  - intros w Hw. left. apply (softmax_nonneg _ w Hne' Hw).
  - apply softmax_sum. exact Hne'.
Qed.

Lemma attention_row_distribution_witness :
  [1; 3] <> [] /\ (false = false \/ 0 = 0) /\
  exists attn,
    attention_row 0 false [] [1; 3] = Ok attn /\
    length attn = length [1; 3] /\
    (forall w, In w attn -> 0 <= w) /\
    sum attn = 1.
Proof.
  split; [discriminate|]. split; [left; reflexivity|].
  apply (attention_row_distribution 0 false [] [1; 3]);
    [discriminate | left; reflexivity].
Defined.

(** An empty row has no attention weights: [amax] refuses it. *)
Lemma attention_row_empty (p : R) (training : bool) (keep : list bool) :
  attention_row p training keep [] = Raise IndexError.
Proof. reflexivity. Qed.

(** ** The offset network *)

















Section OffsetBound.

Variable gelu : R -> R.




End OffsetBound.

(** ** What the constructor returns *)

Lemma require_true (b : bool) (e : exn) : b = true -> require b e = Ok tt.
Proof. intros H. rewrite H. reflexivity. Qed.

Lemma py_floordiv_Ok (a b : Z) : b <> 0%Z -> py_floordiv a b = Ok (a / b)%Z.
Proof.
  intros H. unfold py_floordiv.
  destruct (Z.eqb_spec b 0); [contradiction | reflexivity].
Qed.

Lemma nn_Linear_Ok (i o : Z) :
  (0 <= i)%Z -> (0 <= o)%Z ->
  nn_Linear i o = Ok {| in_features := i; out_features := o |}.
Proof.
  intros Hi Ho. unfold nn_Linear.
  rewrite require_true; [reflexivity|].
  apply andb_true_intro; split; apply Z.leb_le; assumption.
Qed.

Lemma nn_Conv1d_Ok (i o k g s p : Z) :
  (0 < g)%Z -> (i mod g = 0)%Z -> (o mod g = 0)%Z ->
  (0 <= o)%Z -> (0 <= i)%Z -> (0 <= k)%Z ->
  nn_Conv1d i o k g s p =
  Ok {| in_channels := i; out_channels := o; kernel_size := k;
        groups := g; stride := s; padding := p |}.
Proof.
  intros Hg Hi Ho Ho0 Hi0 Hk. unfold nn_Conv1d.
  rewrite require_true by (apply Z.ltb_lt; exact Hg).
  rewrite require_true by (apply Z.eqb_eq; exact Hi).
  rewrite require_true by (apply Z.eqb_eq; exact Ho).
  rewrite require_true; [reflexivity|].
  repeat (apply andb_true_intro; split); apply Z.leb_le; try assumption.
  apply Z.div_pos; assumption.
Qed.

Lemma nn_Dropout_Ok (p : R) : 0 <= p <= 1 -> nn_Dropout p = Ok p.
Proof.
  intros [H0 H1]. unfold nn_Dropout.
  destruct (Rlt_dec p 0); [lra|]. destruct (Rlt_dec 1 p); [lra|]. reflexivity.
Qed.

Lemma pow_minus_half_Ok (x : Z) :
  x <> 0%Z -> pow_minus_half x = Ok (/ sqrt (IZR x)).
Proof.
  intros H. unfold pow_minus_half.
  destruct (Z.eqb_spec x 0); [contradiction | reflexivity].
Qed.

Lemma init_asserts_Ok (c : Config) :
  let g := default (offset_groups c) (heads c) in
  ((offset_kernel_size c - downsample_factor c) mod 2 = 0)%Z ->
  g <> 0%Z -> (heads c mod g = 0)%Z ->
  init_asserts c = Ok g.
Proof.
  intros g E1 Hg Hh.
  rewrite init_asserts_even by exact E1. simpl. fold g.
  rewrite divisible_by_nonzero by exact Hg. simpl.
  rewrite Hh. reflexivity.
Qed.

(** The number of channels of an offset group is positive. *)
Lemma offset_dims_pos (dh h g : Z) :
  (0 < dh)%Z -> (0 < h)%Z -> (0 < g)%Z -> (h mod g = 0)%Z ->
  (0 < dh * h / g)%Z /\ (dh * h = g * (dh * h / g))%Z.
Proof.
  intros Hdh Hh Hg Hm.
  assert (Hd : (h = g * (h / g))%Z).
  { pose proof (Z.div_mod h g ltac:(lia)). lia. }
  assert (Hq : (0 < h / g)%Z).
  { destruct (Z.lt_trichotomy (h / g) 0) as [L|[L|L]]; [nia|nia|exact L]. }
  assert (E : (dh * h / g = dh * (h / g))%Z).
  { rewrite Hd at 1. replace (dh * (g * (h / g)))%Z with (dh * (h / g) * g)%Z
      by ring. apply Z.div_mul. lia. }
  rewrite E. split; [nia|]. rewrite Hd at 1. ring.
Qed.

(** For a configuration with positive sizes that passes the two
    assertions, the constructor returns [module_of]. *)
Lemma init_positive (c : Config) :
  let g := default (offset_groups c) (heads c) in
  (0 <= dim c)%Z -> (0 < dim_head c)%Z -> (0 < heads c)%Z -> (0 < g)%Z ->
  (0 <= offset_kernel_size c)%Z -> 0 <= dropout c <= 1 ->
  ((offset_kernel_size c - downsample_factor c) mod 2 = 0)%Z ->
  (heads c mod g = 0)%Z ->
  init c = Ok (module_of c g).
Proof.
  intros g Hd Hdh Hh Hg Hk Hp E1 E2.
  destruct (offset_dims_pos (dim_head c) (heads c) g Hdh Hh Hg E2)
    as [Hod _].
  assert (Hhg : (0 <= heads c / g)%Z) by (apply Z.div_pos; lia).
  assert (Hd4 : (0 <= dim c / 4)%Z) by (apply Z.div_pos; lia).
  unfold init. rewrite (init_asserts_Ok c E1) by (fold g; lia || exact E2).
  fold g. cbv beta iota delta [bind].
  rewrite pow_minus_half_Ok by lia.
  rewrite py_floordiv_Ok by lia.
  rewrite nn_Conv1d_Ok; try lia; try (apply Z.mod_same; lia).
  rewrite nn_Conv1d_Ok; try lia; try (apply Z.mod_1_r).
  unfold CPB_init.
  rewrite py_floordiv_Ok by lia.
  rewrite nn_Dropout_Ok by exact Hp.
  rewrite !nn_Linear_Ok by nia. cbv beta iota delta [bind].
  rewrite !nn_Linear_Ok by nia.
  reflexivity.
Qed.

Lemma require_inv (b : bool) (e : exn) (A : Type) (k : result A) (a : A) :
  (require b e ;;; k) = Ok a -> b = true /\ k = Ok a.
Proof. destruct b; simpl; intros H; [split; [reflexivity|exact H] | discriminate]. Qed.

Lemma py_floordiv_inv (a b q : Z) :
  py_floordiv a b = Ok q -> b <> 0%Z /\ q = (a / b)%Z.
Proof.
  unfold py_floordiv. destruct (Z.eqb_spec b 0); intros H; [discriminate|].
  injection H as H. split; [assumption | symmetry; exact H].
Qed.

Lemma nn_Linear_inv (i o : Z) (l : Linear) :
  nn_Linear i o = Ok l ->
  l = {| in_features := i; out_features := o |} /\ (0 <= i)%Z /\ (0 <= o)%Z.
Proof.
  unfold nn_Linear. intros H. apply require_inv in H. destruct H as [Hb H].
  apply andb_prop in Hb. destruct Hb as [H1 H2].
  apply Z.leb_le in H1. apply Z.leb_le in H2.
  injection H as H. split; [symmetry; exact H | split; assumption].
Qed.

Lemma nn_Conv1d_inv (i o k g s p : Z) (c : Conv1d) :
  nn_Conv1d i o k g s p = Ok c ->
  c = {| in_channels := i; out_channels := o; kernel_size := k;
         groups := g; stride := s; padding := p |} /\
  (0 < g)%Z /\ (i mod g = 0)%Z /\ (0 <= i / g)%Z /\ (0 <= k)%Z.
Proof.
  unfold nn_Conv1d. intros H.
  apply require_inv in H. destruct H as [H1 H]. apply Z.ltb_lt in H1.
  apply require_inv in H. destruct H as [H2 H]. apply Z.eqb_eq in H2.
  apply require_inv in H. destruct H as [H3 H].
  apply require_inv in H. destruct H as [H4 H].
  apply andb_prop in H4. destruct H4 as [H4 H6].
  apply andb_prop in H4. destruct H4 as [H4 H5].
  apply Z.leb_le in H5. apply Z.leb_le in H6.
  injection H as H. repeat split; try assumption. symmetry; exact H.
Qed.

Lemma nn_Dropout_inv (p q : R) : nn_Dropout p = Ok q -> q = p /\ 0 <= p <= 1.
Proof.
  unfold nn_Dropout. destruct (Rlt_dec p 0); [discriminate|].
  destruct (Rlt_dec 1 p); [discriminate|]. intros H. injection H as H.
  split; [symmetry; exact H | lra].
Qed.

Lemma pow_minus_half_inv (x : Z) (r : R) :
  pow_minus_half x = Ok r -> x <> 0%Z /\ r = / sqrt (IZR x).
Proof.
  unfold pow_minus_half. destruct (Z.eqb_spec x 0); intros H; [discriminate|].
  injection H as H. split; [assumption | symmetry; exact H].
Qed.

Lemma divisible_by_inv (a b : Z) (r : bool) :
  divisible_by a b = Ok r -> b <> 0%Z /\ r = (a mod b =? 0)%Z.
Proof.
  unfold divisible_by, py_mod. destruct (Z.eqb_spec b 0); simpl; intros H;
    [discriminate|].
  injection H as H. split; [assumption | symmetry; exact H].
Qed.

Lemma assert_inv (b : bool) (A : Type) (k : result A) (a : A) :
  (assert b ;;; k) = Ok a -> b = true /\ k = Ok a.
Proof. destruct b; simpl; intros H; [split; [reflexivity|exact H] | discriminate]. Qed.

Lemma init_asserts_inv (c : Config) (g' : Z) :
  init_asserts c = Ok g' ->
  let g := default (offset_groups c) (heads c) in
  g' = g /\ g <> 0%Z /\ (heads c mod g = 0)%Z /\
  ((offset_kernel_size c - downsample_factor c) mod 2 = 0)%Z.
Proof.
  intros H g. unfold init_asserts in H.
  apply bind_Ok in H. destruct H as [b1 [Hb1 H]].
  apply divisible_by_inv in Hb1. destruct Hb1 as [_ Hb1].
  apply assert_inv in H. destruct H as [T1 H].
  apply bind_Ok in H. destruct H as [b2 [Hb2 H]].
  apply divisible_by_inv in Hb2. destruct Hb2 as [Hg Hb2].
  apply assert_inv in H. destruct H as [T2 H].
  injection H as H. subst b1 b2.
  apply Z.eqb_eq in T1. apply Z.eqb_eq in T2.
  repeat split; try assumption. symmetry; exact H.
Qed.

(** A module the constructor returned is [module_of] its configuration, and
    the sizes of the configuration are positive. *)
Lemma init_inv (c : Config) (m : DeformableAttention1D) :
  init c = Ok m ->
  let g := default (offset_groups c) (heads c) in
  m = module_of c g /\
  (0 <= dim c)%Z /\ (0 < dim_head c)%Z /\ (0 < heads c)%Z /\ (0 < g)%Z /\
  (heads c mod g = 0)%Z /\
  ((offset_kernel_size c - downsample_factor c) mod 2 = 0)%Z /\
  (0 <= offset_kernel_size c)%Z.
Proof.
  intros H g. unfold init in H.
  apply bind_Ok in H. destruct H as [g' [Ha H]].
  apply init_asserts_inv in Ha. fold g in Ha.
  destruct Ha as [Eg [Hg0 [Hmod Heven]]]. subst g'.
  apply bind_Ok in H. destruct H as [sc [Hsc H]].
  apply pow_minus_half_inv in Hsc. destruct Hsc as [Hdh0 Esc].
  apply bind_Ok in H. destruct H as [od [Hod H]].
  apply py_floordiv_inv in Hod. destruct Hod as [_ Eod].
  apply bind_Ok in H. destruct H as [dw [Hdw H]].
  apply nn_Conv1d_inv in Hdw. destruct Hdw as [Edw [Hodpos [_ [_ Hk]]]].
  apply bind_Ok in H. destruct H as [pw [Hpw H]].
  apply nn_Conv1d_inv in Hpw. destruct Hpw as [Epw _].
  apply bind_Ok in H. destruct H as [cpb [Hcpb H]].
  unfold CPB_init in Hcpb.
  apply bind_Ok in Hcpb. destruct Hcpb as [l1 [Hl1 Hcpb]].
  apply nn_Linear_inv in Hl1. destruct Hl1 as [El1 _].
  apply bind_Ok in Hcpb. destruct Hcpb as [l2 [Hl2 Hcpb]].
  apply nn_Linear_inv in Hl2. destruct Hl2 as [El2 _].
  apply bind_Ok in Hcpb. destruct Hcpb as [o [Ho Hcpb]].
  apply py_floordiv_inv in Ho. destruct Ho as [_ Eo].
  apply bind_Ok in Hcpb. destruct Hcpb as [l3 [Hl3 Hcpb]].
  apply nn_Linear_inv in Hl3. destruct Hl3 as [El3 [_ Ho0]].
  injection Hcpb as Hcpb.
  apply bind_Ok in H. destruct H as [p [Hp H]].
  apply nn_Dropout_inv in Hp. destruct Hp as [Ep _].
  apply bind_Ok in H. destruct H as [q [Hq H]].
  apply nn_Linear_inv in Hq. destruct Hq as [Eq [Hdim Hinner]].
  apply bind_Ok in H. destruct H as [kv [Hkv H]].
  apply nn_Linear_inv in Hkv. destruct Hkv as [Ekv _].
  apply bind_Ok in H. destruct H as [out [Hout H]].
  apply nn_Linear_inv in Hout. destruct Hout as [Eout _].
  injection H as H.
  subst.
  assert (Hg : (0 < g)%Z).
  { destruct (Z.lt_trichotomy g 0) as [L|[L|L]]; [|lia|exact L].
    exfalso.
    pose proof (Z.div_mod (dim_head c * heads c) g Hg0) as D.
    pose proof (Z.mod_neg_bound (dim_head c * heads c) g L) as B.
    nia. }
  assert (Hh : (0 < heads c)%Z).
  { destruct (Z.lt_trichotomy (heads c) 0) as [L|[L|L]]; [| |exact L].
    - exfalso.
      assert ((heads c / g < 0)%Z) by (apply Z.div_lt_upper_bound; lia).
      lia.
    - exfalso. rewrite L, Z.mul_0_r, Z.div_0_l in Hodpos; lia. }
  assert (Hdh : (0 < dim_head c)%Z) by nia.
  repeat split; try assumption.
Qed.

(** ** The shapes of a forward call *)

Section ShapeProofs.

Local Open Scope Z_scope.

#[local] Arguments bind : simpl never.
#[local] Arguments require : simpl never.
#[local] Arguments Shape.broadcast_dim : simpl never.
#[local] Arguments Shape.conv_out_len : simpl never.
#[local] Arguments Z.mul : simpl never.
#[local] Arguments Z.add : simpl never.
#[local] Arguments Z.sub : simpl never.
#[local] Arguments Z.div : simpl never.
#[local] Arguments Z.modulo : simpl never.
#[local] Arguments Z.eqb : simpl never.
#[local] Arguments Z.ltb : simpl never.
#[local] Arguments Z.leb : simpl never.

Lemma bind_Ok_l {A B : Type} (a : A) (k : A -> result B) :
  bind (Ok a) k = k a.
Proof. reflexivity. Qed.

Lemma bind_assoc {A B C : Type} (m : result A) (f : A -> result B)
    (k : B -> result C) :
  bind (bind m f) k = bind m (fun x => bind (f x) k).
Proof. destruct m; reflexivity. Qed.

Lemma broadcast_dim_same (a : Z) : Shape.broadcast_dim a a = Ok a.
Proof. unfold Shape.broadcast_dim. rewrite Z.eqb_refl. reflexivity. Qed.

Lemma broadcast_dim_1_l (a : Z) : Shape.broadcast_dim 1 a = Ok a.
Proof.
  unfold Shape.broadcast_dim.
  destruct (Z.eqb_spec 1 a); [subst; reflexivity | reflexivity].
Qed.

Lemma broadcast_dim_1_r (a : Z) : Shape.broadcast_dim a 1 = Ok a.
Proof.
  unfold Shape.broadcast_dim.
  destruct (Z.eqb_spec a 1); [reflexivity|].
  destruct (Z.eqb_spec a 1); [contradiction | reflexivity].
Qed.

(** The pointwise convolution keeps the length. *)
Lemma conv_out_len_pointwise (i o g l : Z) :
  Shape.conv_out_len
    {| in_channels := i; out_channels := o; kernel_size := 1; groups := g;
       stride := 1; padding := 0 |} l = l.
Proof.
  unfold Shape.conv_out_len. simpl.
  rewrite Z.div_1_r. lia.
Qed.

(** With the padding [(k - s) // 2] of the constructor, [k - s] even and not
    negative, a convolution of stride [s] over [l >= s] positions returns
    [floor(l / s)] positions. *)
Lemma conv_out_len_floor (i o g k s l : Z) :
  0 < s -> (k - s) mod 2 = 0 -> 0 <= (k - s) / 2 ->
  Shape.conv_out_len
    {| in_channels := i; out_channels := o; kernel_size := k; groups := g;
       stride := s; padding := (k - s) / 2 |} l = l / s.
Proof.
  intros Hs Heven Hpad. unfold Shape.conv_out_len. simpl.
  assert (E : 2 * ((k - s) / 2) = k - s).
  { pose proof (Z.div_mod (k - s) 2 ltac:(lia)). lia. }
  rewrite E.
  replace (l + (k - s) - (k - 1) - 1) with (l + (-1) * s) by ring.
  rewrite Z.div_add by lia. lia.
Qed.

Ltac head_unfold H :=
  match type of H with
  | bind (require _ _) _ = _ => fail 1
  | bind (Ok _) _ = _ => fail 1
  | bind (bind _ _) _ = _ => fail 1
  | bind (Shape.broadcast_dim _ _) _ = _ => fail 1
  | bind (?f _ _ _) _ = _ => unfold f at 1 in H
  | bind (?f _ _) _ = _ => unfold f at 1 in H
  | bind (?f _) _ = _ => unfold f at 1 in H
  end; simpl in H.

(** Run the statements of [H : ... = Ok r] one after the other, keeping
    the condition of every check that is passed. *)
Ltac forward_steps H :=
  repeat first
    [ rewrite bind_Ok_l in H
    | rewrite bind_assoc in H
    | (apply require_inv in H;
       let Hr := fresh "Hreq" in destruct H as [Hr H])
    | rewrite broadcast_dim_1_l in H
    | rewrite broadcast_dim_same in H
    | rewrite broadcast_dim_1_r in H
    | progress head_unfold H ].

(** What a successful forward call on a rank-3 input tells. *)
Lemma forward_inv (c : Config) (m : DeformableAttention1D) (b n d : Z)
    (rv : bool) (out : shape) (vg : option shape) :
  init c = Ok m ->
  Shape.forward m [b; n; d] rv = Ok (out, vg) ->
  let g := default (offset_groups c) (heads c) in
  d = dim c /\ dim c = dim_head c * heads c /\
  n = dim_head c * heads c / g /\
  0 < b /\ 0 < downsample_factor c /\
  downsample_factor c <= offset_kernel_size c /\
  downsample_factor c <= n /\
  out = [b; n; d] /\
  vg = (if rv then Some [b * g; n / downsample_factor c] else None).
Proof.
  intros Hi H g.
  destruct (init_inv c m Hi) as [Em [Hdim [Hdh [Hh [Hg [Hmod [Heven Hk]]]]]]].
  fold g in Em, Hg, Hmod. subst m.
  destruct (offset_dims_pos (dim_head c) (heads c) g Hdh Hh Hg Hmod)
    as [Hod Einner].
  unfold Shape.forward in H. simpl in H.
  forward_steps H.
  rewrite (Z.div_mul b g) in H by lia.
  replace (g * (heads c / g)) with (heads c) in H
    by (apply Z.div_exact; [lia | exact Hmod]).
  forward_steps H.
  rewrite conv_out_len_pointwise in *.
  apply Z.eqb_eq in Hreq, Hreq3, Hreq13.
  apply Z.leb_le in Hreq1, Hreq4. apply Z.ltb_lt in Hreq2.
  apply andb_prop in Hreq12. destruct Hreq12 as [Hb _].
  apply Z.ltb_lt in Hb.
  rewrite conv_out_len_floor in H by assumption.
  assert (E2 : 2 * ((offset_kernel_size c - downsample_factor c) / 2)
               = offset_kernel_size c - downsample_factor c).
  { pose proof (Z.div_mod (offset_kernel_size c - downsample_factor c) 2
                  ltac:(lia)). lia. }
  assert (Ebg : b * g / b = g).
  { rewrite Z.mul_comm. apply Z.div_mul. lia. }
  rewrite Ebg in Hreq13.
  repeat split; try lia.
  - destruct rv; injection H as H1 H2; subst; reflexivity.
  - destruct rv; injection H as H1 H2; subst; reflexivity.
Qed.

Lemma Linear_forward_length (l : Linear) (x y : shape) :
  Shape.Linear_forward l x = Ok y -> length y = length x.
Proof.
  unfold Shape.Linear_forward. intros H.
  destruct (rev x) as [|d batch] eqn:E; [discriminate|].
  apply require_inv in H. destruct H as [_ H]. injection H as H. subst y.
  rewrite length_app, length_rev. rewrite <- (length_rev x), E.
  simpl. lia.
Qed.

Lemma rearrange_group_rank (g : Z) (x y : shape) :
  Shape.rearrange_group g x = Ok y -> length x = 3%nat.
Proof.
  unfold Shape.rearrange_group. intros H.
  destruct x as [|a [|b [|c [|e x']]]]; try discriminate. reflexivity.
Qed.

(** [forward] accepts inputs of rank 3 only. *)
Lemma forward_rank (m : DeformableAttention1D) (x : shape) (rv : bool)
    (r : shape * option shape) :
  Shape.forward m x rv = Ok r -> exists b n d, x = [b; n; d].
Proof.
  intros H. unfold Shape.forward in H.
  apply bind_Ok in H. destruct H as [b [_ H]].
  apply bind_Ok in H. destruct H as [n [_ H]].
  apply bind_Ok in H. destruct H as [q [Hq H]].
  apply bind_Ok in H. destruct H as [gf [Hgf _]].
  apply Linear_forward_length in Hq. apply rearrange_group_rank in Hgf.
  rewrite Hgf in Hq.
  destruct x as [|a1 [|a2 [|a3 [|a4 x']]]]; try discriminate.
  exists a1, a2, a3. reflexivity.
Qed.

(** X16. Whenever a forward call returns, the output has the shape of the
    input, and the grid returned on request has the shape
    [(batch * offset_groups, length // downsample_factor)]. *)
Lemma forward_keeps_shape (c : Config) (m : DeformableAttention1D)
    (x : shape) (rv : bool) (out : shape) (vg : option shape) :
  init c = Ok m ->
  Shape.forward m x rv = Ok (out, vg) ->
  out = x /\
  exists b n d, x = [b; n; d] /\
    vg = (if rv
          then Some [b * default (offset_groups c) (heads c);
                     n / downsample_factor c]
          else None).
Proof.
  intros Hi H. destruct (forward_rank m x rv _ H) as [b [n [d E]]]. subst x.
  destruct (forward_inv c m b n d rv out vg Hi H)
    as [_ [_ [_ [_ [_ [_ [_ [Eo Ev]]]]]]]].
  split; [exact Eo|]. exists b, n, d. split; [reflexivity | exact Ev].
Qed.

(** A forward call returns only if [dim = dim_head * heads] and the input
    has [dim_head * heads / offset_groups] positions. *)
Lemma forward_needs (c : Config) (m : DeformableAttention1D)
    (b n d : Z) (rv : bool) (r : shape * option shape) :
  init c = Ok m ->
  Shape.forward m [b; n; d] rv = Ok r ->
  dim c = dim_head c * heads c /\
  n = dim_head c * heads c / default (offset_groups c) (heads c).
Proof.
  intros Hi H. destruct r as [out vg].
  destruct (forward_inv c m b n d rv out vg Hi H) as [_ [E1 [E2 _]]].
  split; assumption.
Qed.

Lemma init_scenario :
  init scenario_config = Ok (module_of scenario_config 1).
Proof.
  apply (init_positive scenario_config); simpl; try lia; try lra;
    reflexivity.
Qed.

Lemma init_default_512 : init default_512 = Ok (module_of default_512 8).
Proof.
  apply (init_positive default_512); simpl; try lia; try lra; reflexivity.
Qed.

Lemma init_nine : init nine_config = Ok (module_of nine_config 1).
Proof.
  apply (init_positive nine_config); simpl; try lia; try lra; reflexivity.
Qed.

Lemma init_two : init two_config = Ok (module_of two_config 1).
Proof.
  apply (init_positive two_config); simpl; try lia; try lra; reflexivity.
Qed.

(** C1. The end-to-end scenario of the specification is a valid
    configuration: the constructor returns a module. The forward call on an
    input of shape [(1, 8, 16)] raises: the sampled features have
    [dim_head * heads = 8] channels and [to_kv] expects [dim = 16]. With and
    without [return_vgrid]. *)
Theorem forward_scenario_raises :
  init scenario_config = Ok (module_of scenario_config 1) /\
  Shape.forward (module_of scenario_config 1) [1; 8; 16] false
  = Raise RuntimeError /\
  Shape.forward (module_of scenario_config 1) [1; 8; 16] true
  = Raise RuntimeError.
Proof.
  split; [exact init_scenario|]. split; reflexivity.
Qed.

(** The same with the defaults and [dim = 512 = dim_head * heads]: an input
    of 128 positions is refused by the depthwise convolution, which gets the
    128 positions where it expects its 64 channels; only an input of 64
    positions is accepted. *)
Lemma forward_default_512 :
  init default_512 = Ok (module_of default_512 8) /\
  Shape.forward (module_of default_512 8) [1; 128; 512] false
  = Raise RuntimeError /\
  Shape.forward (module_of default_512 8) [1; 64; 512] true
  = Ok ([1; 64; 512], Some [8; 16]).
Proof.
  split; [exact init_default_512|]. split; reflexivity.
Qed.

(** The failing step of the scenario: up to the sampled features the call
    succeeds, and [to_kv] refuses them. *)
Lemma forward_scenario_to_kv :
  let m := module_of scenario_config 1 in
  Shape.rearrange_ungroup 1 [1; 8; 4] = Ok [1; 4; 8] /\
  Shape.Linear_forward (to_kv m) [1; 4; 8] = Raise RuntimeError.
Proof. split; reflexivity. Qed.

(** C4 (as amended). Whenever the forward call returns, the offset field,
    and with it the grid of sampling positions, has
    [floor(length / downsample_factor)] entries per (batch, offset
    group). *)
Theorem offset_field_length (c : Config) (m : DeformableAttention1D)
    (b n d : Z) (out vgrid : shape) :
  init c = Ok m ->
  Shape.forward m [b; n; d] true = Ok (out, Some vgrid) ->
  vgrid = [b * default (offset_groups c) (heads c);
           n / downsample_factor c].
Proof.
  intros Hi H.
  destruct (forward_inv c m b n d true out (Some vgrid) Hi H)
    as [_ [_ [_ [_ [_ [_ [_ [_ Ev]]]]]]]].
  injection Ev as Ev. exact Ev.
Qed.

Lemma offset_field_length_witness :
  init nine_config = Ok (module_of nine_config 1) /\
  Shape.forward (module_of nine_config 1) [1; 9; 9] true
  = Ok ([1; 9; 9], Some [1; 2]) /\
  [1; 2] = [1 * default (offset_groups nine_config) (heads nine_config);
            9 / downsample_factor nine_config].
Proof.
  split; [exact init_nine|]. split; [reflexivity|].
  apply (offset_field_length nine_config (module_of nine_config 1)
           1 9 9 [1; 9; 9] [1; 2]).
  - exact init_nine.
  - reflexivity.
Defined.

(** C4 (as stated) fails: with [downsample_factor = 4] an input of 9
    positions gets an offset field of 2 entries, and [ceil(9 / 4)] is 3. *)
Lemma offset_field_length_not_ceil :
  init nine_config = Ok (module_of nine_config 1) /\
  Shape.forward (module_of nine_config 1) [1; 9; 9] true
  = Ok ([1; 9; 9], Some [1; 2]) /\
  ceil_div 9 (downsample_factor nine_config) = 3 /\
  2 <> ceil_div 9 (downsample_factor nine_config).
Proof.
  split; [exact init_nine|]. split; [reflexivity|].
  split; [reflexivity | discriminate].
Qed.

Ltac head_unfold_goal :=
  match goal with
  | |- bind (require _ _) _ = _ => fail 1
  | |- bind (Ok _) _ = _ => fail 1
  | |- bind (bind _ _) _ = _ => fail 1
  | |- bind (Shape.broadcast_dim _ _) _ = _ => fail 1
  | |- bind (?f _ _ _) _ = _ => unfold f at 1
  | |- bind (?f _ _) _ = _ => unfold f at 1
  | |- bind (?f _) _ = _ => unfold f at 1
  end; simpl.

Ltac check_solver :=
  repeat (apply andb_true_intro; split);
  first [apply Z.eqb_eq | apply Z.ltb_lt | apply Z.leb_le];
  first [assumption | reflexivity | lia].

Ltac goal_steps norm :=
  repeat first
    [ rewrite bind_Ok_l
    | rewrite bind_assoc
    | rewrite require_true by check_solver
    | rewrite broadcast_dim_1_l
    | rewrite broadcast_dim_same
    | rewrite broadcast_dim_1_r
    | progress norm
    | progress head_unfold_goal ].

(** The inputs a module accepts: with [dim = dim_head * heads], an input of
    [dim_head * heads / offset_groups] positions, at least
    [downsample_factor] of them, and a kernel not shorter than the stride,
    the forward call returns, and keeps the shape. *)
Lemma forward_Ok (c : Config) (m : DeformableAttention1D) (b n : Z)
    (rv : bool) :
  init c = Ok m ->
  let g := default (offset_groups c) (heads c) in
  dim c = dim_head c * heads c ->
  n = dim_head c * heads c / g ->
  0 < b -> 0 < downsample_factor c ->
  downsample_factor c <= offset_kernel_size c ->
  downsample_factor c <= n ->
  Shape.forward m [b; n; dim c] rv =
  Ok ([b; n; dim c],
      if rv then Some [b * g; n / downsample_factor c] else None).
Proof.
  intros Hi g Hdim Hn Hb Hs Hsk Hsn.
  destruct (init_inv c m Hi) as [Em [Hd0 [Hdh [Hh [Hg [Hmod [Heven Hk]]]]]]].
  fold g in Em, Hg, Hmod. subst m.
  destruct (offset_dims_pos (dim_head c) (heads c) g Hdh Hh Hg Hmod)
    as [Hod Einner].
  assert (R1 : (dim_head c * heads c) mod g = 0).
  { rewrite Einner, Z.mul_comm. apply Z.mod_mul. lia. }
  assert (R2 : b * g / b = g) by (rewrite Z.mul_comm; apply Z.div_mul; lia).
  assert (R3 : (b * g) mod b = 0) by (rewrite Z.mul_comm; apply Z.mod_mul; lia).
  assert (R4 : (b * g) mod g = 0) by (apply Z.mod_mul; lia).
  assert (R5 : b * g / g = b) by (apply Z.div_mul; lia).
  assert (R6 : (dim_head c * heads c * 2 + 1) / 2 = dim_head c * heads c).
  { rewrite Z.add_comm, Z.div_add by lia.
    replace (1 / 2) with 0 by reflexivity. lia. }
  assert (R7 : dim_head c * heads c * 2 - dim_head c * heads c
               = dim_head c * heads c) by lia.
  assert (R8 : (dim_head c * heads c) mod heads c = 0)
    by (apply Z.mod_mul; lia).
  assert (R9 : dim_head c * heads c / heads c = dim_head c)
    by (apply Z.div_mul; lia).
  assert (R10 : g * (heads c / g) = heads c).
  { symmetry. apply Z.div_exact; [lia | exact Hmod]. }
  assert (R11 : 0 <= (offset_kernel_size c - downsample_factor c) / 2)
    by (apply Z.div_pos; lia).
  assert (R12 : 2 * ((offset_kernel_size c - downsample_factor c) / 2)
                = offset_kernel_size c - downsample_factor c).
  { pose proof (Z.div_mod (offset_kernel_size c - downsample_factor c) 2
                  ltac:(lia)). lia. }
  assert (R13 : heads c * dim_head c = dim_head c * heads c) by ring.
  assert (R14 : g * (dim_head c * heads c / g) = dim_head c * heads c)
    by (symmetry; exact Einner).
  assert (R15 : 1 <= n / downsample_factor c)
    by (apply Z.div_le_lower_bound; lia).
  unfold Shape.forward. simpl.
  subst n.
  goal_steps ltac:(rewrite ?R1, ?R2, ?R3, ?R4, ?R5, ?R6, ?R7, ?R8, ?R9, ?R10,
                    ?R12, ?R13, ?R14, ?conv_out_len_pointwise,
                    ?(conv_out_len_floor _ _ _ _ _ _ Hs Heven R11)).
  destruct rv; reflexivity.
Qed.

(** X12. The bias network of a module returns a bias of exactly the shape
    of the similarities, [(batch, heads, queries, keys)], for the query
    positions [(queries)] and the sampling positions
    [(batch * offset_groups, keys)]: adding it to the similarities never
    broadcasts. *)
Theorem CPB_forward_shape (c : Config) (m : DeformableAttention1D)
    (b n j : Z) :
  init c = Ok m ->
  Shape.CPB_forward (rel_pos_bias m) [n]
    [b * default (offset_groups c) (heads c); j]
  = Ok [b; heads c; n; j].
Proof.
  intros Hi.
  destruct (init_inv c m Hi) as [Em [Hd0 [Hdh [Hh [Hg [Hmod _]]]]]].
  set (g := default (offset_groups c) (heads c)) in *. subst m.
  assert (R4 : (b * g) mod g = 0) by (apply Z.mod_mul; lia).
  assert (R5 : b * g / g = b) by (apply Z.div_mul; lia).
  assert (R10 : g * (heads c / g) = heads c).
  { symmetry. apply Z.div_exact; [lia | exact Hmod]. }
  unfold Shape.CPB_forward. simpl.
  unfold Shape.broadcast. simpl.
  goal_steps ltac:(rewrite ?R4, ?R5, ?R10).
  unfold Shape.rearrange_bias.
  rewrite require_true by check_solver.
  rewrite bind_Ok_l, R5, R10. reflexivity.
Qed.

End ShapeProofs.

(** The offset network on [two_feats]: one offset. *)
Lemma to_offsets_two :
  to_offsets (fun x => x) (module_of two_config 1) two_weights two_feats
  = Ok [[round32
           (tanh (dot [1; 1] [dot [1; 0] [1; 3] + 0; dot [0; 1] [2; 4] + 0]))
         * 4]].
Proof. reflexivity. Qed.



(** ** The sampler *)

Lemma combine_map_map {A B C D : Type} (f : A -> C) (g : B -> D)
    (xs : list A) (ys : list B) :
  combine (map f xs) (map g ys) =
  map (fun p => (f (fst p), g (snd p))) (combine xs ys).
Proof.
  revert ys. induction xs as [|x xs IH]; intros [|y ys]; simpl;
    try reflexivity.
  rewrite IH. reflexivity.
Qed.

Lemma nth_error_combine_Some {A B : Type} (xs : list A) (ys : list B)
    (n : nat) (a : A) (b : B) :
  nth_error xs n = Some a -> nth_error ys n = Some b ->
  nth_error (combine xs ys) n = Some (a, b).
Proof.
  revert ys n. induction xs as [|x xs IH]; intros [|y ys] [|n] Ha Hb;
    simpl in *; try discriminate.
  - injection Ha as ->. injection Hb as ->. reflexivity.
  - apply IH; assumption.
Qed.

Lemma nonempty_images_columns (feats : tensor3) :
  nonempty_images (map (map (map (fun a : R => [a]))) feats)
  = nonempty_sequences feats.
Proof.
  unfold nonempty_images, nonempty_sequences.
  induction feats as [|fb feats IH]; simpl; [reflexivity|].
  rewrite IH. f_equal.
  induction fb as [|ch fb IHc]; simpl; [reflexivity|].
  rewrite IHc. f_equal.
  rewrite length_map. destruct ch; reflexivity.
Qed.

(** What [grid_sample_1d] computes: every sampling position [v] of batch
    element [b] is looked up in every channel of the same batch element,
    with [v] as the horizontal coordinate and 0 as the vertical one of an
    image that has the sequence as its only column. *)
Lemma grid_sample_1d_eq (feats : tensor3) (grid : tensor2) :
  length feats = length grid ->
  nonempty_sequences feats = true ->
  grid_sample_1d feats grid =
  Ok (map (fun fg =>
             map (fun ch =>
                    map (fun v => bilinear (map (fun a => [a]) ch) v 0)
                        (snd fg))
                 (fst fg))
          (combine feats grid)).
Proof.
  intros Hlen Hne. unfold grid_sample_1d, grid_sample.
  rewrite nonempty_images_columns, Hne.
  rewrite !length_map.
  match goal with
  | |- context [Nat.eqb ?a ?b] =>
      destruct (Nat.eqb_spec a b) as [_|Hn];
      [|exfalso; apply Hn; exact Hlen]
  end.
  simpl.
  f_equal. rewrite (map_map _ _ grid). rewrite combine_map_map, !map_map.
  apply map_ext. intros [fb gb]. simpl.
  rewrite !map_map. apply map_ext. intros ch.
  rewrite !map_map. apply map_ext. intros v. reflexivity.
Qed.

Lemma grid_sample_1d_batch_mismatch (feats : tensor3) (grid : tensor2) :
  length feats <> length grid ->
  grid_sample_1d feats grid = Raise RuntimeError.
Proof.
  intros Hlen. unfold grid_sample_1d, grid_sample.
  rewrite !length_map.
  match goal with
  | |- context [Nat.eqb ?a ?b] =>
      destruct (Nat.eqb_spec a b) as [E|_];
      [exfalso; apply Hlen; exact E | reflexivity]
  end.
Qed.

Lemma grid_sample_1d_empty_sequence (feats : tensor3) (grid : tensor2) :
  nonempty_sequences feats = false ->
  grid_sample_1d feats grid = Raise RuntimeError.
Proof.
  intros Hne. unfold grid_sample_1d, grid_sample.
  rewrite nonempty_images_columns, Hne.
  match goal with
  | |- context [Nat.eqb ?a ?b] => destruct (Nat.eqb a b); reflexivity
  end.
Qed.

(** When [grid_sample_1d] returns, the batch sizes agree and no sequence
    is empty. *)
Lemma grid_sample_1d_Ok_inv (feats : tensor3) (grid : tensor2)
    (out : tensor3) :
  grid_sample_1d feats grid = Ok out ->
  length feats = length grid /\ nonempty_sequences feats = true.
Proof.
  intros H.
  destruct (Nat.eq_dec (length feats) (length grid)) as [Hlen|Hlen].
  2:{ rewrite grid_sample_1d_batch_mismatch in H by exact Hlen.
      discriminate. }
  destruct (nonempty_sequences feats) eqn:Hne.
  - split; [exact Hlen | reflexivity].
  - rewrite grid_sample_1d_empty_sequence in H by exact Hne. discriminate.
Qed.

Lemma pixel_outside_columns (img : tensor2) (iy ix : Z) :
  (ix < 0 \/ Z.of_nat (ncols img) <= ix)%Z -> pixel img iy ix = 0.
Proof.
  intros H. unfold pixel.
  destruct ((0 <=? iy)%Z && (iy <? Z.of_nat (length img))%Z) ; simpl;
    [|reflexivity].
  destruct (Z.leb_spec 0 ix); simpl; [|reflexivity].
  destruct (Z.ltb_spec ix (Z.of_nat (ncols img))); [lia | reflexivity].
Qed.

Lemma ncols_column (ch : tensor1) :
  (ncols (map (fun a : R => [a]) ch) <= 1)%nat.
Proof. destruct ch; simpl; lia. Qed.

Lemma unnormalize_one (v : R) : unnormalize v 1 = v / 2.
Proof. unfold unnormalize. simpl. field. Qed.

Lemma unnormalize_zero (v : R) : unnormalize v 0 = - (1 / 2).
Proof. unfold unnormalize. simpl. field. Qed.

(** A position two or more away from the centre samples nothing. *)
Lemma bilinear_column_far (ch : tensor1) (v : R) :
  2 <= Rabs v -> bilinear (map (fun a => [a]) ch) v 0 = 0.
Proof.
  intros Hv. set (img := map (fun a : R => [a]) ch).
  destruct ch as [|a ch'].
  { (* no sample at all: every pixel is outside *)
    unfold bilinear. subst img. simpl map.
    rewrite !pixel_outside_columns; [ring | | | |]; simpl; lia. }
  assert (Hc : ncols img = 1%nat) by reflexivity.
  unfold bilinear. cbv zeta. rewrite Hc, unnormalize_one.
  set (ix := v / 2).
  match goal with
  | |- context [Zfloor (unnormalize 0 ?n)] => set (iy := unnormalize 0 n)
  end.
  pose proof (Zfloor_bound ix) as [Hlo Hhi].
  assert (Hcases : 2 <= v \/ v <= -2).
  { unfold Rabs in Hv. destruct (Rcase_abs v); [right | left]; lra. }
  destruct Hcases as [Hge|Hle].
  - assert (H1 : (1 <= Zfloor ix)%Z).
    { apply Zfloor_lub. unfold ix. simpl. lra. }
    rewrite !pixel_outside_columns by (right; rewrite Hc; lia). ring.
  - assert (H1 : (Zfloor ix <= -1)%Z).
    { apply le_IZR. unfold ix in *. lra. }
    rewrite (pixel_outside_columns img (Zfloor iy) (Zfloor ix))
      by (left; lia).
    rewrite (pixel_outside_columns img (Zfloor iy + 1) (Zfloor ix))
      by (left; lia).
    destruct (Z.eq_dec (Zfloor ix) (-1)) as [E|E].
    + assert (Eix : ix = -1).
      { rewrite E in Hlo. unfold ix in *. lra. }
      rewrite E, Eix. simpl. ring.
    + rewrite !pixel_outside_columns by (left; lia). ring.
Qed.

(** C5 (as amended). With the zero padding of the sampler, a sampling
    position [v] with [|v| >= 2] gets the feature 0 in every channel. *)
Theorem grid_sample_1d_zero_padding (feats : tensor3) (grid : tensor2)
    (out : tensor3) (b c m : nat) (row ob oc : _) (v o : R) :
  grid_sample_1d feats grid = Ok out ->
  nth_error grid b = Some row -> nth_error row m = Some v ->
  2 <= Rabs v ->
  nth_error out b = Some ob -> nth_error ob c = Some oc ->
  nth_error oc m = Some o ->
  o = 0.
Proof.
  intros H Hrow Hv Hfar Hob Hoc Ho.
  destruct (grid_sample_1d_Ok_inv feats grid out H) as [Hlen Hne].
  rewrite grid_sample_1d_eq in H by assumption. injection H as H. subst out.
  rewrite nth_error_map in Hob.
  destruct (nth_error (combine feats grid) b) as [[fb gb]|] eqn:Ec;
    [|discriminate].
  simpl in Hob. injection Hob as Hob. subst ob.
  assert (Egb : gb = row).
  { assert (Hs : nth_error (map snd (combine feats grid)) b = Some gb).
    { rewrite nth_error_map, Ec. reflexivity. }
    assert (Hm : forall (xs : tensor3) (ys : tensor2) n y,
               nth_error (map snd (combine xs ys)) n = Some y ->
               nth_error ys n = Some y).
    { induction xs as [|x xs IH]; intros [|y0 ys] [|n] y Hn; simpl in *;
        try discriminate; [exact Hn | apply (IH _ _ _ Hn)]. }
    apply Hm in Hs. rewrite Hrow in Hs. injection Hs as Hs.
    symmetry; exact Hs. }
  subst gb.
  rewrite nth_error_map in Hoc.
  destruct (nth_error fb c) as [ch|]; [|discriminate].
  simpl in Hoc. injection Hoc as Hoc. subst oc.
  rewrite nth_error_map, Hv in Ho. simpl in Ho. injection Ho as Ho.
  subst o. apply bilinear_column_far. exact Hfar.
Qed.

Lemma Zfloor_half : Zfloor (1 / 2) = 0%Z.
Proof. apply Zfloor_eq. simpl. lra. Qed.

Lemma Zfloor_minus_half : Zfloor (- 1 / 2) = (-1)%Z.
Proof. apply Zfloor_eq. simpl. lra. Qed.

Lemma Zfloor_0 : Zfloor 0 = 0%Z.
Proof. apply Zfloor_eq. simpl. lra. Qed.

Lemma Zfloor_1 : Zfloor 1 = 1%Z.
Proof. apply Zfloor_eq. simpl. lra. Qed.

(** A sequence of one sample [a]: at the positions +1 and -1 the sampler
    returns [a / 2]. *)
Lemma bilinear_single_at_edge (a : R) :
  bilinear [[a]] 1 0 = a / 2 /\ bilinear [[a]] (-1) 0 = a / 2.
Proof.
  split; unfold bilinear; simpl ncols; simpl length; cbv zeta.
  - replace (unnormalize 1 1) with (1 / 2)
      by (unfold unnormalize; simpl; field).
    replace (unnormalize 0 1) with 0 by (unfold unnormalize; simpl; field).
    rewrite Zfloor_half, Zfloor_0. unfold pixel. simpl. lra.
  - replace (unnormalize (-1) 1) with (- 1 / 2)
      by (unfold unnormalize; simpl; field).
    replace (unnormalize 0 1) with 0 by (unfold unnormalize; simpl; field).
    rewrite Zfloor_minus_half, Zfloor_0. unfold pixel. simpl. lra.
Qed.

(** A sequence of three samples: the positions +1, -1 and 0 all read the
    middle sample, with the weights 1/2, 1/2 and 1. *)
Lemma bilinear_three (a0 a1 a2 : R) :
  bilinear [[a0]; [a1]; [a2]] 1 0 = a1 / 2 /\
  bilinear [[a0]; [a1]; [a2]] (-1) 0 = a1 / 2 /\
  bilinear [[a0]; [a1]; [a2]] 0 0 = a1.
Proof.
  assert (Ey : unnormalize 0 3 = 1) by (unfold unnormalize; simpl; field).
  repeat split; unfold bilinear; simpl ncols; simpl length; cbv zeta;
    rewrite Ey, Zfloor_1.
  - replace (unnormalize 1 1) with (1 / 2)
      by (unfold unnormalize; simpl; field).
    rewrite Zfloor_half. unfold pixel. simpl. lra.
  - replace (unnormalize (-1) 1) with (- 1 / 2)
      by (unfold unnormalize; simpl; field).
    rewrite Zfloor_minus_half. unfold pixel. simpl. lra.
  - replace (unnormalize 0 1) with 0 by (unfold unnormalize; simpl; field).
    rewrite Zfloor_0. unfold pixel. simpl. lra.
Qed.

(** C5 (as stated) fails: at the sampling position +1 (and at -1) the
    sampler returns half of the sample [1], not 0. *)
Lemma grid_sample_1d_at_one_not_zero :
  grid_sample_1d [[[1]]] [[1; -1]] = Ok [[[1 / 2; 1 / 2]]] /\ 1 / 2 <> 0.
Proof.
  split; [|lra].
  rewrite grid_sample_1d_eq by reflexivity. simpl.
  destruct (bilinear_single_at_edge 1) as [E1 E2]. rewrite E1, E2.
  reflexivity.
Qed.

(** On a longer sequence the positions +1 and -1 do not read the last and
    the first sample: [F.pad(grid, (0, 1))] makes the position the
    horizontal coordinate of an image of width 1, and the vertical
    coordinate, along the sequence, is always 0, the middle. *)
Lemma grid_sample_1d_reads_middle :
  grid_sample_1d [[[10; 20; 30]]] [[1; -1; 0]] = Ok [[[10; 10; 20]]].
Proof.
  rewrite grid_sample_1d_eq by reflexivity. simpl.
  destruct (bilinear_three 10 20 30) as [E1 [E2 E3]]. rewrite E1, E2, E3.
  repeat f_equal; lra.
Qed.

Lemma grid_sample_1d_zero_padding_witness :
  bilinear [[10]; [20]; [30]] (-2) 0 = 0.
Proof.
  apply (grid_sample_1d_zero_padding
           [[[10; 20; 30]]] [[-2]]
           [[[bilinear [[10]; [20]; [30]] (-2) 0]]]
           0 0 0 [-2]
           [[bilinear [[10]; [20]; [30]] (-2) 0]]
           [bilinear [[10]; [20]; [30]] (-2) 0]
           (-2) (bilinear [[10]; [20]; [30]] (-2) 0)).
  - apply grid_sample_1d_eq; reflexivity.
  - reflexivity.
  - reflexivity.
  - unfold Rabs. destruct (Rcase_abs (-2)); lra.
  - reflexivity.
  - reflexivity.
  - reflexivity.
Defined.

(** ** The bias of a head *)

Lemma nth_error_chunks {A : Type} (g : nat) (l : list A) (b : nat) :
  (b < length l / g)%nat ->
  nth_error (chunks g l) b = Some (firstn g (skipn (b * g) l)).
Proof.
  intros Hb. unfold chunks.
  rewrite nth_error_map, nth_error_nth' with (d := 0%nat)
    by (rewrite length_seq; exact Hb).
  rewrite seq_nth by exact Hb. reflexivity.
Qed.

Lemma nth_error_chunk_entry {A : Type} (g : nat) (l : list A) (b k : nat) :
  (k < g)%nat ->
  nth_error (firstn g (skipn (b * g) l)) k = nth_error l (b * g + k).
Proof.
  intros Hk. rewrite nth_error_firstn.
  destruct (Nat.ltb_spec k g); [|lia].
  apply nth_error_skipn.
Qed.

Lemma nth_error_concat_uniform {A : Type} (n : nat) (l : list (list A))
    (h : nat) :
  (0 < n)%nat -> (forall x, In x l -> length x = n) ->
  nth_error (concat l) h =
  match nth_error l (h / n) with
  | Some x => nth_error x (h mod n)
  | None => None
  end.
Proof.
  intros Hn. revert h. induction l as [|x l IH]; intros h Hlen.
  - simpl. destruct (h / n)%nat; destruct h; reflexivity.
  - simpl concat. assert (Hx : length x = n) by (apply Hlen; left; reflexivity).
    destruct (Nat.lt_ge_cases h n) as [Hlt|Hge].
    + rewrite Nat.div_small, Nat.mod_small by exact Hlt. simpl.
      apply nth_error_app1. rewrite Hx. exact Hlt.
    + rewrite nth_error_app2 by (rewrite Hx; exact Hge). rewrite Hx.
      rewrite IH by (intros y Hy; apply Hlen; right; exact Hy).
      assert (E1 : (h / n = S ((h - n) / n))%nat).
      { replace h with ((h - n) + 1 * n)%nat at 1 by lia.
        rewrite Nat.div_add by lia. lia. }
      assert (E2 : (h mod n = (h - n) mod n)%nat).
      { replace h with ((h - n) + 1 * n)%nat at 1 by lia.
        apply Nat.Div0.mod_add. }
      rewrite E1, E2. reflexivity.
Qed.

Lemma nth_error_move_last_first (o : nat) (t : list (list (list R)))
    (c : nat) :
  (c < o)%nat ->
  nth_error (move_last_first o t) c
  = Some (map (map (fun v => nth c v 0)) t).
Proof.
  intros Hc. unfold move_last_first.
  rewrite nth_error_map, nth_error_nth' with (d := 0%nat)
    by (rewrite length_seq; exact Hc).
  rewrite seq_nth by exact Hc. reflexivity.
Qed.

Lemma length_move_last_first (o : nat) (t : list (list (list R))) :
  length (move_last_first o t) = o.
Proof. unfold move_last_first. rewrite length_map, length_seq. reflexivity. Qed.

(** The plane of head [h] of batch element [b] after
    [rearrange(bias, '(b g) i j o -> b (g o) i j', g = g)]: it is the output
    channel [h mod o] of the entry [b * g + h / o] of the first axis. *)
Lemma rearrange_bias_head (g o : nat) (t : list (list (list (list R))))
    (r : list (list (list (list R)))) (b h : nat) :
  rearrange_bias g o t = Ok r ->
  (0 < o)%nat -> (b < length t / g)%nat -> (h < g * o)%nat ->
  exists rb tg,
    nth_error r b = Some rb /\
    nth_error t (b * g + h / o) = Some tg /\
    nth_error rb h = Some (map (map (fun v => nth (h mod o) v 0)) tg).
Proof.
  intros H Ho Hb Hh. unfold rearrange_bias in H.
  apply require_inv in H. destruct H as [Hreq H]. injection H as H.
  apply andb_prop in Hreq. destruct Hreq as [Hg Hdiv].
  apply Nat.ltb_lt in Hg. apply Nat.eqb_eq in Hdiv.
  assert (Hq : (h / o < g)%nat).
  { apply Nat.Div0.div_lt_upper_bound. lia. }
  assert (Hin : (b * g + h / o < length t)%nat).
  { pose proof (Nat.div_mod_eq (length t) g) as D. rewrite Hdiv in D. nia. }
  destruct (nth_error t (b * g + h / o)) as [tg|] eqn:Etg.
  2:{ apply nth_error_None in Etg. lia. }
  eexists. exists tg. split; [|split; [reflexivity|]].
  - subst r. rewrite nth_error_map, nth_error_chunks by exact Hb.
    reflexivity.
  - rewrite (nth_error_concat_uniform o).
    + rewrite nth_error_map, nth_error_chunk_entry by exact Hq.
      rewrite Etg. simpl.
      apply nth_error_move_last_first. apply Nat.mod_upper_bound. lia.
    + exact Ho.
    + intros x Hx. apply in_map_iff in Hx. destruct Hx as [y [E _]].
      subst x. apply length_move_last_first.
Qed.

Lemma length_linear (l : LinearW) (x : list R) :
  length (weight l) = length (bias l) ->
  length (linear l x) = length (bias l).
Proof.
  intros H. unfold linear. rewrite length_map, length_combine, H.
  apply Nat.min_id.
Qed.

(** The bias network has one output per head of an offset group. *)
Lemma length_mlp_forward (w : CPBW) (x : list R) :
  length (weight (last w)) = length (bias (last w)) ->
  length (mlp_forward w x) = length (bias (last w)).
Proof. intros H. unfold mlp_forward. apply length_linear. exact H. Qed.

(** C9. The bias of head [h] (of batch element [b], for query position [i]
    and sampled key position [j]) is the output [h mod (heads /
    offset_groups)] of the bias network on the signed-log distance between
    the query position and the key position [j] of the deformed grid of
    offset group [h // (heads / offset_groups)], the row
    [b * offset_groups + h // (heads / offset_groups)] of [vgrid_scaled]. *)
Theorem bias_of_head (c : Config) (m : DeformableAttention1D) (w : CPBW)
    (grid_q : list R) (grid_kv : list (list R))
    (bias_t : list (list (list (list R)))) (b h i j : nat) (qi kj : R)
    (row : list R) :
  let G := Z.to_nat (default (offset_groups c) (heads c)) in
  let O := Z.to_nat (heads c / default (offset_groups c) (heads c)) in
  init c = Ok m ->
  length (weight (last w)) = O -> length (bias (last w)) = O ->
  CPB_forward (rel_pos_bias m) w grid_q grid_kv = Ok bias_t ->
  (b < length grid_kv / G)%nat -> (h < Z.to_nat (heads c))%nat ->
  nth_error grid_q i = Some qi ->
  nth_error grid_kv (b * G + h / O) = Some row ->
  nth_error row j = Some kj ->
  exists pb ph pi_,
    nth_error bias_t b = Some pb /\ nth_error pb h = Some ph /\
    nth_error ph i = Some pi_ /\
    nth_error pi_ j = Some (nth (h mod O) (mlp_forward w [rel_pos qi kj]) 0) /\
    (h mod O < length (mlp_forward w [rel_pos qi kj]))%nat /\
    (G = 1%nat -> (b * G + h / O)%nat = b).
Proof.
  intros G O Hi Hw Hb H Hbr Hh Hqi Hrow Hkj.
  destruct (init_inv c m Hi) as [Em [_ [_ [Hheads [Hg [Hmod _]]]]]].
  set (g := default (offset_groups c) (heads c)) in *.
  assert (Hdiv : (heads c = g * (heads c / g))%Z).
  { apply Z.div_exact; [lia | exact Hmod]. }
  assert (HOpos : (0 < heads c / g)%Z) by nia.
  assert (HGO : Z.to_nat (heads c) = (G * O)%nat).
  { subst G O. rewrite <- Z2Nat.inj_mul by lia. f_equal. exact Hdiv. }
  assert (HO : (0 < O)%nat) by (subst O; lia).
  subst m. unfold CPB_forward in H. simpl cpb_offset_groups in H.
  fold G in H. rewrite Hb in H.
  destruct (rearrange_bias_head G O _ bias_t b h H HO) as [rb [tg [E1 [E2 E3]]]].
  { rewrite !length_map. exact Hbr. }
  { rewrite <- HGO. exact Hh. }
  rewrite !nth_error_map, Hrow in E2. simpl in E2. injection E2 as E2.
  subst tg.
  exists rb. eexists. eexists. split; [exact E1|]. split; [exact E3|].
  split; [|split; [|split]].
  - rewrite !nth_error_map, Hqi. simpl. reflexivity.
  - rewrite !nth_error_map, Hkj. simpl. reflexivity.
  - rewrite length_mlp_forward by congruence. rewrite Hb.
    apply Nat.mod_upper_bound. lia.
  - intros HG1. rewrite HG1 in *. rewrite Nat.div_small by lia. lia.
Qed.

(** The channels of head [h], [h * dim_head] to [(h + 1) * dim_head - 1],
    lie in the offset group [h // (heads / offset_groups)], whose channels
    are cut off in pieces of [dim_head * (heads / offset_groups)]. *)
Lemma head_channels_in_group (dh o h ch : nat) :
  (0 < dh)%nat -> (0 < o)%nat ->
  (h * dh <= ch < (h + 1) * dh)%nat ->
  (ch / (dh * o) = h / o)%nat.
Proof.
  intros Hdh Ho [Hlo Hhi].
  rewrite <- Nat.Div0.div_div. f_equal.
  symmetry. apply (Nat.div_unique ch dh h (ch - h * dh)); lia.
Qed.

Lemma init_shared : init shared_config = Ok (module_of shared_config 1).
Proof.
  apply (init_positive shared_config); simpl; try lia; try lra; reflexivity.
Qed.

Lemma bias_of_head_witness :
  exists pb ph pi_,
    nth_error (value_of []
                 (CPB_forward (rel_pos_bias (module_of shared_config 1))
                              shared_weights [-1; 1] [[0; 1 / 2]])) 0
    = Some pb /\
    nth_error pb 1 = Some ph /\
    nth_error ph 0 = Some pi_ /\
    nth_error pi_ 1
    = Some (nth (1 mod 2) (mlp_forward shared_weights [rel_pos (-1) (1 / 2)])
                0) /\
    (1 mod 2 < length (mlp_forward shared_weights [rel_pos (-1) (1 / 2)]))%nat
    /\ (1%nat = 1%nat -> (0 * 1 + 1 / 2)%nat = 0%nat).
Proof.
  apply (bias_of_head shared_config (module_of shared_config 1)
           shared_weights [-1; 1] [[0; 1 / 2]]
           (value_of []
              (CPB_forward (rel_pos_bias (module_of shared_config 1))
                           shared_weights [-1; 1] [[0; 1 / 2]]))
           0 1 0 1 (-1) (1 / 2) [0; 1 / 2]).
  - exact init_shared.
  - reflexivity.
  - reflexivity.
  - reflexivity.
  - simpl. lia.
  - simpl. lia.
  - reflexivity.
  - reflexivity.
  - reflexivity.
Defined.

(** ** The number of positions of a convolution *)

(** A kernel of [k > 0] entries moved in steps of [s > 0] over [n]
    positions fits [floor((n - k) / s) + 1] times when [k <= n], and not at
    all otherwise. *)
Lemma length_windows (fuel k s : nat) (xs : list R) :
  (0 < k)%nat -> (0 < s)%nat -> (length xs < fuel)%nat ->
  length (windows fuel k s xs) =
  if (k <=? length xs)%nat then ((length xs - k) / s + 1)%nat else 0%nat.
Proof.
  intros Hk Hs. revert xs.
  induction fuel as [|fuel IH]; intros xs Hfuel; [lia|].
  simpl. destruct (Nat.leb_spec k (length xs)) as [Hfit|Hnot];
    [|reflexivity].
  simpl. destruct (Nat.lt_ge_cases (length xs) (k + s)) as [Hlast|Hmore].
  - (* the kernel does not fit a second time *)
    assert (Hrest : (length (skipn s xs) < k)%nat)
      by (rewrite length_skipn; lia).
    destruct fuel as [|fuel']; simpl.
    + rewrite Nat.div_small by lia. reflexivity.
    + destruct (Nat.leb_spec k (length (skipn s xs))); [lia|].
      rewrite Nat.div_small by lia. reflexivity.
  - rewrite IH by (rewrite length_skipn; lia).
    rewrite length_skipn.
    destruct (Nat.leb_spec k (length xs - s)); [|lia].
    replace (length xs - k)%nat with ((length xs - s - k) + 1 * s)%nat by lia.
    rewrite Nat.div_add by lia. lia.
Qed.

Lemma length_pad_zeros (p : nat) (xs : list R) :
  length (pad_zeros p xs) = (length xs + 2 * p)%nat.
Proof.
  unfold pad_zeros. rewrite !length_app, !repeat_length. lia.
Qed.

(** One channel of the depthwise convolution returns as many positions as
    the formula of [Shape.conv_out_len] says. *)
Lemma length_conv_channel (c : Conv1d) (w : list R) (b : R) (xs : list R) :
  (0 < kernel_size c)%Z -> (0 < stride c)%Z -> (0 <= padding c)%Z ->
  (kernel_size c <= Z.of_nat (length xs) + 2 * padding c)%Z ->
  Z.of_nat (length (conv_channel (Z.to_nat (kernel_size c))
                                 (Z.to_nat (stride c))
                                 (Z.to_nat (padding c)) w b xs))
  = Shape.conv_out_len c (Z.of_nat (length xs)).
Proof.
  intros Hk Hs Hp Hfit. unfold conv_channel, Shape.conv_out_len.
  rewrite length_map, length_windows; try lia.
  rewrite length_pad_zeros.
  destruct (Nat.leb_spec (Z.to_nat (kernel_size c))
              (length xs + 2 * Z.to_nat (padding c))) as [_|Hn]; [|lia].
  rewrite Nat2Z.inj_add, Nat2Z.inj_div, Nat2Z.inj_sub by lia.
  rewrite Nat2Z.inj_add, Nat2Z.inj_mul, !Z2Nat.id by lia.
  simpl Z.of_nat. f_equal. f_equal. lia.
Qed.

Lemma init_per_head : init per_head_config = Ok (module_of per_head_config 2).
Proof.
  apply (init_positive per_head_config); simpl; try lia; try lra;
    reflexivity.
Qed.

(** With one offset group per head, head 0 gets the bias of the first row
    of key positions and head 1 that of the second row. *)
Lemma bias_per_head (q k0 k1 : R) :
  CPB_forward (rel_pos_bias (module_of per_head_config 2)) per_head_weights
              [q] [[k0]; [k1]]
  = Ok [[ [[nth 0 (mlp_forward per_head_weights [rel_pos q k0]) 0]];
          [[nth 0 (mlp_forward per_head_weights [rel_pos q k1]) 0]] ]].
Proof. reflexivity. Qed.

(** With one offset group for both heads, the two heads get the two
    outputs of the bias network on the same row of key positions. *)
Lemma bias_shared (q k0 : R) :
  CPB_forward (rel_pos_bias (module_of shared_config 1)) shared_weights
              [q] [[k0]]
  = Ok [[ [[nth 0 (mlp_forward shared_weights [rel_pos q k0]) 0]];
          [[nth 1 (mlp_forward shared_weights [rel_pos q k0]) 0]] ]].
Proof. reflexivity. Qed.

(** * Further properties *)

(** ** [normalize_grid] on the grid and on the deformed grid *)

Lemma max_pred_pos (n : nat) : 0 < IZR (Z.max (Z.of_nat n - 1) 1).
Proof. apply IZR_lt. lia. Qed.

(** X1. [normalize_grid] keeps the order of the positions it is given:
    of two entries of one grid, the larger one is mapped to the larger
    value. *)
Theorem normalize_grid_increasing (xs : list R) (i j : nat) :
  (i < length xs)%nat -> (j < length xs)%nat ->
  nth i xs 0 < nth j xs 0 ->
  nth i (normalize_grid xs) 0 < nth j (normalize_grid xs) 0.
Proof.
  intros Hi Hj Hlt. rewrite !nth_normalize_grid by assumption.
  pose proof (max_pred_pos (length xs)) as Hd.
  set (d := IZR (Z.max (Z.of_nat (length xs) - 1) 1)) in *.
  apply Rplus_lt_compat_r. unfold Rdiv.
  apply Rmult_lt_compat_r; [apply Rinv_0_lt_compat; exact Hd | lra].
Qed.

Lemma normalize_grid_increasing_witness :
  nth 0 (normalize_grid [3; 5]) 0 < nth 1 (normalize_grid [3; 5]) 0.
Proof.
  apply (normalize_grid_increasing [3; 5] 0 1); simpl; try lia; lra.
Defined.

(** X2. The positions [arange(N)] are mapped into [[-1, 1]], evenly
    spaced: index [i] goes to [2 * i / max(N - 1, 1) - 1]. *)
Theorem normalize_grid_arange_range (N i : nat) :
  (i < N)%nat ->
  nth i (normalize_grid (arange N)) 0
  = 2 * INR i / IZR (Z.max (Z.of_nat N - 1) 1) - 1 /\
  -1 <= nth i (normalize_grid (arange N)) 0 <= 1.
Proof.
  intros Hi.
  rewrite nth_normalize_grid by (rewrite length_arange; exact Hi).
  rewrite length_arange, nth_arange by exact Hi.
  split; [reflexivity|].
  pose proof (max_pred_pos N) as Hd.
  assert (Hi0 : 0 <= INR i) by apply pos_INR.
  assert (Hid : INR i <= IZR (Z.max (Z.of_nat N - 1) 1)).
  { rewrite INR_IZR_INZ. apply IZR_le. lia. }
  set (d := IZR (Z.max (Z.of_nat N - 1) 1)) in *.
  split.
  - assert (0 <= 2 * INR i / d); [|lra].
    unfold Rdiv. apply Rmult_le_pos; [lra|].
    left. apply Rinv_0_lt_compat. exact Hd.
  - assert (2 * INR i / d <= 2); [|lra].
    apply (Rmult_le_reg_r d); [exact Hd|].
    unfold Rdiv. rewrite Rmult_assoc, Rinv_l by lra. lra.
Qed.

Lemma normalize_grid_arange_range_witness :
  nth 1 (normalize_grid (arange 4)) 0
  = 2 * INR 1 / IZR (Z.max (Z.of_nat 4 - 1) 1) - 1 /\
  -1 <= nth 1 (normalize_grid (arange 4)) 0 <= 1.
Proof. apply (normalize_grid_arange_range 4 1). lia. Defined.

Lemma length_add_grid_row (row : list R) :
  length (map (fun p : R * R => fst p + snd p)
              (combine (arange (length row)) row)) = length row.
Proof.
  rewrite length_map, length_combine, length_arange. apply Nat.min_id.
Qed.

Lemma nth_add_grid_row (row : list R) (i : nat) :
  (i < length row)%nat ->
  nth i (map (fun p : R * R => fst p + snd p)
             (combine (arange (length row)) row)) 0
  = INR i + nth i row 0.
Proof.
  intros Hi. pose proof (length_add_grid_row row) as Hlen.
  set (f := fun p : R * R => fst p + snd p) in *.
  rewrite (nth_indep _ 0 (f (0, 0))) by (rewrite Hlen; exact Hi).
  rewrite map_nth, combine_nth by (apply length_arange).
  unfold f. simpl. rewrite nth_arange by exact Hi. reflexivity.
Qed.

(** X3. The sampling position of entry [i] of a row of offsets is the
    normalized base position [i] moved by [2 * offset / max(M - 1, 1)],
    [M] being the number of offsets of the row; an offset of magnitude
    below [S] moves it by less than [2 * S / max(M - 1, 1)]. *)
Theorem vgrid_scaled_displacement (offsets : list (list R)) (b i : nat)
    (row : list R) (S : R) :
  nth_error offsets b = Some row ->
  (i < length row)%nat ->
  Rabs (nth i row 0) < S ->
  let d := IZR (Z.max (Z.of_nat (length row) - 1) 1) in
  exists vrow,
    nth_error (vgrid_scaled offsets) b = Some vrow /\
    length vrow = length row /\
    nth i vrow 0
    = nth i (normalize_grid (arange (length row))) 0 + 2 * nth i row 0 / d /\
    Rabs (nth i vrow 0 - nth i (normalize_grid (arange (length row))) 0)
    < 2 * S / d.
Proof.
  intros Hrow Hi Hs d.
  pose proof (max_pred_pos (length row)) as Hd. fold d in Hd.
  eexists. split.
  { unfold vgrid_scaled, normalize_grid2, add_grid.
    rewrite !nth_error_map, Hrow. reflexivity. }
  split.
  { rewrite length_normalize_grid. apply length_add_grid_row. }
  assert (E : nth i (normalize_grid
                       (map (fun p : R * R => fst p + snd p)
                            (combine (arange (length row)) row))) 0
              = nth i (normalize_grid (arange (length row))) 0
                + 2 * nth i row 0 / d).
  { rewrite !nth_normalize_grid
      by (rewrite ?length_add_grid_row, ?length_arange; exact Hi).
    rewrite length_add_grid_row, length_arange.
    rewrite nth_add_grid_row, nth_arange by exact Hi.
    fold d. field. lra. }
  split; [exact E|].
  rewrite E.
  replace (nth i (normalize_grid (arange (length row))) 0
           + 2 * nth i row 0 / d
           - nth i (normalize_grid (arange (length row))) 0)
    with (nth i row 0 * (2 / d)) by (field; lra).
  assert (H2d : 0 < 2 / d) by (apply Rdiv_lt_0_compat; lra).
  rewrite Rabs_mult, (Rabs_pos_eq (2 / d)) by lra.
  replace (2 * S / d) with (S * (2 / d)) by (field; lra).
  apply Rmult_lt_compat_r; assumption.
Qed.

Lemma vgrid_scaled_displacement_witness :
  exists vrow,
    nth_error (vgrid_scaled [[1; -1; 0]]) 0 = Some vrow /\
    length vrow = length [1; -1; 0] /\
    nth 1 vrow 0
    = nth 1 (normalize_grid (arange (length [1; -1; 0]))) 0
      + 2 * nth 1 [1; -1; 0] 0
        / IZR (Z.max (Z.of_nat (length [1; -1; 0]) - 1) 1) /\
    Rabs (nth 1 vrow 0
          - nth 1 (normalize_grid (arange (length [1; -1; 0]))) 0)
    < 2 * 4 / IZR (Z.max (Z.of_nat (length [1; -1; 0]) - 1) 1).
Proof.
  apply (vgrid_scaled_displacement [[1; -1; 0]] 0 1 [1; -1; 0] 4).
  - reflexivity.
  - simpl. lia.
  - simpl. unfold Rabs. destruct (Rcase_abs (-1)); lra.
Defined.

(** ** The attention weights *)

Lemma fold_left_Rmax_ge_init (xs : list R) (x : R) :
  x <= fold_left Rmax xs x.
Proof.
  revert x. induction xs as [|y ys IH]; intros x; simpl; [lra|].
  apply Rle_trans with (Rmax x y); [apply Rmax_l | apply IH].
Qed.

Lemma fold_left_Rmax_upper (xs : list R) (x y : R) :
  In y xs -> y <= fold_left Rmax xs x.
Proof.
  revert x. induction xs as [|z zs IH]; intros x Hy; [contradiction|].
  simpl. destruct Hy as [E|Hy].
  - subst z. apply Rle_trans with (Rmax x y);
      [apply Rmax_r | apply fold_left_Rmax_ge_init].
  - apply IH. exact Hy.
Qed.

Lemma fold_left_Rmax_In (xs : list R) (x : R) :
  fold_left Rmax xs x = x \/ In (fold_left Rmax xs x) xs.
Proof.
  revert x. induction xs as [|y ys IH]; intros x; simpl; [left; reflexivity|].
  destruct (IH (Rmax x y)) as [E|Hin].
  - rewrite E. unfold Rmax. destruct (Rle_dec x y); [right; left | left];
      reflexivity.
  - right. right. exact Hin.
Qed.

(** X4. [amax] returns the largest entry of a row: it is an entry, and no
    entry exceeds it. After [sim - sim.amax(...)] every similarity is at
    most 0, and one of them is 0. *)
Theorem amax_is_maximum (row : list R) (mx : R) :
  amax row = Ok mx ->
  In mx row /\ (forall x, In x row -> x <= mx) /\
  (forall y, In y (map (fun s => s - mx) row) -> y <= 0) /\
  In 0 (map (fun s => s - mx) row).
Proof.
  intros H. destruct row as [|x rest]; [discriminate|].
  simpl in H. injection H as H.
  assert (Hin : In mx (x :: rest)).
  { subst mx. destruct (fold_left_Rmax_In rest x) as [E|Hin];
      [left; symmetry; exact E | right; exact Hin]. }
  assert (Hub : forall y, In y (x :: rest) -> y <= mx).
  { intros y [E|Hy]; subst mx.
    - subst y. apply fold_left_Rmax_ge_init.
    - apply fold_left_Rmax_upper. exact Hy. }
  split; [exact Hin|]. split; [exact Hub|]. split.
  - intros y Hy. apply in_map_iff in Hy. destruct Hy as [s [E Hs]].
    subst y. specialize (Hub s Hs). lra.
  - apply in_map_iff. exists mx. split; [ring | exact Hin].
Qed.

Lemma amax_is_maximum_witness :
  In 3 [1; 3; 2] /\ (forall x, In x [1; 3; 2] -> x <= 3) /\
  (forall y, In y (map (fun s => s - 3) [1; 3; 2]) -> y <= 0) /\
  In 0 (map (fun s => s - 3) [1; 3; 2]).
Proof.
  apply (amax_is_maximum [1; 3; 2] 3).
  simpl. f_equal. unfold Rmax.
  destruct (Rle_dec 1 3); [|lra]. destruct (Rle_dec 3 2); [lra|].
  reflexivity.
Defined.

Lemma sum_map_exp_shift (m : R) (row : list R) :
  sum (map exp (map (fun s => s - m) row)) = sum (map exp row) * exp (- m).
Proof.
  induction row as [|x xs IH]; simpl; [ring|].
  rewrite IH. unfold Rminus. rewrite exp_plus. ring.
Qed.

Lemma softmax_shift (m : R) (row : list R) :
  row <> [] -> softmax (map (fun s => s - m) row) = softmax row.
Proof.
  intros Hne. unfold softmax. rewrite sum_map_exp_shift, map_map.
  apply map_ext. intros x. unfold Rminus. rewrite exp_plus.
  pose proof (sum_exp_pos row Hne). pose proof (exp_pos (- m)).
  field. split; lra.
Qed.

(** X5. Subtracting the row maximum before the softmax does not change the
    attention weights: with dropout disabled, the weights of a non-empty row
    are the softmax of the biased similarities themselves. *)
Theorem attention_row_is_softmax (p : R) (training : bool)
    (keep : list bool) (sim : list R) :
  sim <> [] -> training = false \/ p = 0 ->
  attention_row p training keep sim = Ok (softmax sim).
Proof.
  intros Hne Hd. destruct sim as [|s rest]; [contradiction|].
  unfold attention_row. simpl amax. cbv beta iota delta [bind].
  rewrite Dropout_forward_disabled by exact Hd.
  rewrite softmax_shift by discriminate. reflexivity.
Qed.

Lemma attention_row_is_softmax_witness :
  attention_row 0 true [] [1; 3] = Ok (softmax [1; 3]).
Proof.
  apply (attention_row_is_softmax 0 true [] [1; 3]);
    [discriminate | right; reflexivity].
Defined.

(** ** What the sampler reads *)

Lemma pixel_column (ch : list R) (r : Z) :
  ch <> [] ->
  pixel (map (fun a => [a]) ch) r 0
  = if ((0 <=? r) && (r <? Z.of_nat (length ch)))%Z
    then nth (Z.to_nat r) ch 0 else 0.
Proof.
  intros Hne. unfold pixel. rewrite length_map.
  assert (Hc : ncols (map (fun a : R => [a]) ch) = 1%nat)
    by (destruct ch; [contradiction | reflexivity]).
  rewrite Hc.
  destruct ((0 <=? r)%Z && (r <? Z.of_nat (length ch))%Z) eqn:E;
    [|reflexivity].
  simpl. apply andb_prop in E. destruct E as [E1 E2].
  apply Z.leb_le in E1. apply Z.ltb_lt in E2.
  set (f := fun a : R => [a]).
  rewrite (nth_indep _ [] (f 0)) by (rewrite length_map; lia).
  rewrite map_nth. reflexivity.
Qed.

(** Along the sequence the sampler always looks at the middle. *)
Lemma row_mix_middle (ch : list R) :
  ch <> [] ->
  let img := map (fun a => [a]) ch in
  let iy := unnormalize 0 (length img) in
  pixel img (Zfloor iy) 0 * (IZR (Zfloor iy + 1) - iy)
  + pixel img (Zfloor iy + 1) 0 * (iy - IZR (Zfloor iy))
  = middle ch.
Proof.
  intros Hne img iy. subst img iy. rewrite length_map.
  rewrite !pixel_column by exact Hne.
  assert (Hpos : (0 < length ch)%nat) by (destruct ch; [contradiction | simpl; lia]).
  unfold middle, unnormalize. cbv zeta.
  destruct (Nat.Even_or_Odd (length ch)) as [[k Hk]|[k Hk]].
  - (* an even number of samples *)
    assert (Hk1 : (1 <= k)%nat) by lia.
    assert (Ey : ((0 + 1) * INR (length ch) - 1) / 2 = IZR (Z.of_nat k - 1) + 1 / 2).
    { rewrite Hk, mult_INR, minus_IZR, <- INR_IZR_INZ. simpl. field. }
    rewrite Ey.
    assert (Ef : Zfloor (IZR (Z.of_nat k - 1) + 1 / 2) = (Z.of_nat k - 1)%Z)
      by (apply Zfloor_eq; lra).
    rewrite Ef.
    replace (Nat.even (length ch)) with true
      by (symmetry; apply Nat.even_spec; exists k; exact Hk).
    destruct (Z.leb_spec 0 (Z.of_nat k - 1)); [|lia].
    destruct (Z.ltb_spec (Z.of_nat k - 1) (Z.of_nat (length ch))); [|lia].
    destruct (Z.leb_spec 0 (Z.of_nat k - 1 + 1)); [|lia].
    destruct (Z.ltb_spec (Z.of_nat k - 1 + 1) (Z.of_nat (length ch))); [|lia].
    simpl andb. cbv iota.
    replace (Z.to_nat (Z.of_nat k - 1)) with (length ch / 2 - 1)%nat.
    2:{ rewrite Hk, Nat.mul_comm, Nat.div_mul by lia. lia. }
    replace (Z.to_nat (Z.of_nat k - 1 + 1)) with (length ch / 2)%nat.
    2:{ rewrite Hk, Nat.mul_comm, Nat.div_mul by lia. lia. }
    rewrite plus_IZR. simpl. lra.
  - (* an odd number of samples *)
    assert (Ey : ((0 + 1) * INR (length ch) - 1) / 2 = IZR (Z.of_nat k)).
    { rewrite Hk, plus_INR, mult_INR, <- INR_IZR_INZ. simpl. field. }
    rewrite Ey, ZfloorZ.
    replace (Nat.even (length ch)) with false.
    2:{ symmetry. rewrite <- Nat.negb_odd. apply Bool.negb_false_iff.
        apply Nat.odd_spec. exists k. exact Hk. }
    destruct (Z.leb_spec 0 (Z.of_nat k)); [|lia].
    destruct (Z.ltb_spec (Z.of_nat k) (Z.of_nat (length ch))); [|lia].
    simpl andb. cbv iota.
    replace (Z.to_nat (Z.of_nat k)) with (length ch / 2)%nat.
    2:{ rewrite Hk, Nat2Z.id.
        replace (2 * k + 1)%nat with (1 + k * 2)%nat by lia.
        rewrite Nat.div_add by lia. reflexivity. }
    rewrite plus_IZR. simpl. ring.
Qed.

Lemma tent_cases (v : R) :
  let ix := v / 2 in
  (Zfloor ix = 0%Z /\ Rmax 0 (1 - Rabs v / 2) = 1 - ix) \/
  (Zfloor ix = (-1)%Z /\ Rmax 0 (1 - Rabs v / 2) = ix + 1) \/
  (Zfloor ix <> 0%Z /\ Zfloor ix <> (-1)%Z /\ Rmax 0 (1 - Rabs v / 2) = 0).
Proof.
  intros ix. pose proof (Zfloor_bound ix) as [Hlo Hhi].
  destruct (Z.eq_dec (Zfloor ix) 0) as [E0|N0].
  - left. split; [exact E0|]. rewrite E0 in *. simpl in *.
    unfold ix in *. rewrite Rabs_pos_eq by lra.
    unfold Rmax. destruct (Rle_dec 0 (1 - v / 2)); lra.
  - destruct (Z.eq_dec (Zfloor ix) (-1)) as [E1|N1].
    + right. left. split; [exact E1|]. rewrite E1 in *. simpl in *.
      unfold ix in *. rewrite Rabs_left by lra.
      unfold Rmax. destruct (Rle_dec 0 (1 - - v / 2)); lra.
    + right. right. split; [exact N0|]. split; [exact N1|].
      assert (Hc : (1 <= Zfloor ix \/ Zfloor ix <= -2)%Z) by lia.
      apply Rmax_left. unfold ix in *. destruct Hc as [Hc|Hc].
      * apply IZR_le in Hc. simpl in Hc.
        rewrite Rabs_pos_eq by lra. lra.
      * apply IZR_le in Hc. simpl in Hc.
        rewrite Rabs_left by lra. lra.
Qed.

(** One channel: the value sampled at the position [v] is the middle of
    the sequence times [max(0, 1 - |v| / 2)]. *)
Lemma bilinear_column_middle (ch : list R) (v : R) :
  bilinear (map (fun a => [a]) ch) v 0
  = Rmax 0 (1 - Rabs v / 2) * middle ch.
Proof.
  destruct ch as [|a ch'] eqn:Ech.
  { unfold bilinear. simpl map.
    rewrite !pixel_outside_columns by (simpl; lia).
    unfold middle. simpl. field. }
  rewrite <- Ech. assert (Hne : ch <> []) by (rewrite Ech; discriminate).
  clear Ech.
  pose proof (row_mix_middle ch Hne) as Hmix. cbv zeta in Hmix.
  rewrite <- Hmix.
  unfold bilinear. cbv zeta.
  assert (Hc : ncols (map (fun a : R => [a]) ch) = 1%nat)
    by (destruct ch; [contradiction | reflexivity]).
  rewrite Hc, unnormalize_one.
  set (img := map (fun a : R => [a]) ch) in *.
  set (iy := unnormalize 0 (length img)).
  set (fy := Zfloor iy).
  destruct (tent_cases v) as [[E T]|[[E T]|[N0 [N1 T]]]]; cbv zeta in *;
    rewrite T.
  - rewrite E.
    rewrite (pixel_outside_columns img fy (0 + 1))
      by (right; rewrite Hc; lia).
    rewrite (pixel_outside_columns img (fy + 1) (0 + 1))
      by (right; rewrite Hc; lia).
    simpl. ring.
  - rewrite E.
    rewrite (pixel_outside_columns img fy (-1)) by (left; lia).
    rewrite (pixel_outside_columns img (fy + 1) (-1)) by (left; lia).
    simpl. ring.
  - rewrite !pixel_outside_columns by (rewrite Hc; lia). ring.
Qed.

(** X6. What [grid_sample_1d] returns when features and grid agree in
    their batch size. If no channel has an empty sequence: for every batch
    element, channel and sampling position [v], the middle of the channel's
    sequence times [max(0, 1 - |v| / 2)]; no other sample of the sequence is
    read, whatever the position. If some channel has an empty sequence, the
    call raises. *)
Theorem grid_sample_1d_reads_only_middle (feats : list (list (list R)))
    (grid : list (list R)) :
  length feats = length grid ->
  (nonempty_sequences feats = true ->
   grid_sample_1d feats grid =
   Ok (map (fun fg =>
              map (fun ch =>
                     map (fun v => Rmax 0 (1 - Rabs v / 2) * middle ch)
                         (snd fg))
                  (fst fg))
           (combine feats grid))) /\
  (nonempty_sequences feats = false ->
   grid_sample_1d feats grid = Raise RuntimeError).
Proof.
  intros Hlen. split.
  - intros Hne. rewrite grid_sample_1d_eq by assumption. f_equal.
    apply map_ext. intros fg. apply map_ext. intros ch.
    apply map_ext. intros v. apply bilinear_column_middle.
  - apply grid_sample_1d_empty_sequence.
Qed.

Lemma grid_sample_1d_reads_only_middle_witness :
  grid_sample_1d [[[10; 20; 30; 40]]] [[0; 1]] =
  Ok (map (fun fg : list (list R) * list R =>
             map (fun ch =>
                    map (fun v => Rmax 0 (1 - Rabs v / 2) * middle ch)
                        (snd fg))
                 (fst fg))
          (combine [[[10; 20; 30; 40]]] [[0; 1]])) /\
  grid_sample_1d [[[]]] [[0; 1]] = Raise RuntimeError.
Proof.
  split.
  - apply (proj1 (grid_sample_1d_reads_only_middle
                    [[[10; 20; 30; 40]]] [[0; 1]] eq_refl)).
    reflexivity.
  - apply (proj2 (grid_sample_1d_reads_only_middle [[[]]] [[0; 1]] eq_refl)).
    reflexivity.
Defined.

(** X7. [grid_sample_1d] raises when features and grid disagree in their
    batch size; otherwise its result has the batch size and the channels of
    the features and, in every channel, one value per sampling position. *)
Theorem grid_sample_1d_dims (feats : list (list (list R)))
    (grid : list (list R)) :
  (length feats <> length grid ->
   grid_sample_1d feats grid = Raise RuntimeError) /\
  (forall out, grid_sample_1d feats grid = Ok out ->
     length out = length feats /\
     forall b fb gb ob,
       nth_error feats b = Some fb -> nth_error grid b = Some gb ->
       nth_error out b = Some ob ->
       length ob = length fb /\
       forall oc, In oc ob -> length oc = length gb).
Proof.
  split; [apply grid_sample_1d_batch_mismatch|].
  intros out H.
  destruct (grid_sample_1d_Ok_inv feats grid out H) as [Hlen Hne].
  rewrite grid_sample_1d_eq in H by assumption. injection H as H. subst out.
  split.
  - rewrite length_map, length_combine, Hlen. apply Nat.min_id.
  - intros b fb gb ob Hfb Hgb Hob.
    rewrite nth_error_map, (nth_error_combine_Some _ _ _ _ _ Hfb Hgb) in Hob.
    simpl in Hob. injection Hob as Hob. subst ob. split.
    + apply length_map.
    + intros oc Hoc. apply in_map_iff in Hoc. destruct Hoc as [ch [E _]].
      subst oc. apply length_map.
Qed.

(** ** The input of the bias network, continued *)

Lemma ln_1_plus_pos (a : R) : 0 < a -> 0 < ln (a + 1) < a.
Proof.
  intros Ha. split.
  - rewrite <- ln_1. apply ln_increasing; lra.
  - rewrite <- (ln_exp a) at 2. apply ln_increasing; [lra|].
    assert (Hne : a <> 0) by lra. pose proof (exp_ineq1 a Hne). lra.
Qed.

Lemma signed_log_pos (x : R) : 0 < x -> signed_log x = ln (x + 1).
Proof.
  intros Hx. unfold signed_log, sign.
  destruct (Rlt_dec 0 x); [|contradiction].
  rewrite Rabs_pos_eq by lra. ring.
Qed.

Lemma signed_log_0 : signed_log 0 = 0.
Proof. unfold signed_log. rewrite sign_0. ring. Qed.

Lemma signed_log_increasing (x y : R) :
  x < y -> signed_log x < signed_log y.
Proof.
  intros Hxy.
  assert (Hp : forall a b, 0 < a -> a < b -> signed_log a < signed_log b).
  { intros a b Ha Hab. rewrite !signed_log_pos by lra.
    apply ln_increasing; lra. }
  assert (H0 : forall a, 0 < a -> 0 < signed_log a).
  { intros a Ha. rewrite signed_log_pos by exact Ha.
    apply (ln_1_plus_pos a Ha). }
  assert (Hn : forall a, a < 0 -> signed_log a < 0).
  { intros a Ha. replace a with (- - a) by ring.
    rewrite (signed_log_opp (- a)).
    assert (0 < signed_log (- a)) by (apply H0; lra). lra. }
  destruct (Rtotal_order x 0) as [Hx|[Hx|Hx]];
    destruct (Rtotal_order y 0) as [Hy|[Hy|Hy]]; try lra.
  - replace x with (- - x) by ring. replace y with (- - y) by ring.
    rewrite (signed_log_opp (- x)), (signed_log_opp (- y)).
    assert (signed_log (- y) < signed_log (- x)) by (apply Hp; lra). lra.
  - subst y. rewrite signed_log_0. apply Hn. exact Hx.
  - specialize (Hn x Hx). specialize (H0 y Hy). lra.
  - subst x. rewrite signed_log_0. apply H0. exact Hy.
  - apply Hp; assumption.
Qed.

Lemma signed_log_le_abs (x : R) : Rabs (signed_log x) <= Rabs x.
Proof.
  destruct (Rtotal_order x 0) as [Hx|[Hx|Hx]].
  - replace x with (- - x) at 1 by ring.
    rewrite (signed_log_opp (- x)), Rabs_Ropp, signed_log_pos by lra.
    destruct (ln_1_plus_pos (- x)) as [H1 H2]; [lra|].
    rewrite Rabs_pos_eq, Rabs_left by lra. lra.
  - subst x. rewrite signed_log_0. lra.
  - rewrite signed_log_pos by exact Hx.
    destruct (ln_1_plus_pos x Hx) as [H1 H2].
    rewrite !Rabs_pos_eq by lra. lra.
Qed.

(** X8. The input of the bias network grows with the query position and
    falls with the key position, and its magnitude never exceeds the
    distance of the two positions. *)
Theorem rel_pos_monotone (p1 p2 q : R) :
  p1 < p2 ->
  rel_pos p1 q < rel_pos p2 q /\ rel_pos q p2 < rel_pos q p1 /\
  Rabs (rel_pos p1 q) <= Rabs (p1 - q).
Proof.
  intros H. unfold rel_pos. split; [|split].
  - apply signed_log_increasing. lra.
  - apply signed_log_increasing. lra.
  - apply signed_log_le_abs.
Qed.

Lemma rel_pos_monotone_witness :
  rel_pos (-1) 0 < rel_pos 1 0 /\ rel_pos 0 1 < rel_pos 0 (-1) /\
  Rabs (rel_pos (-1) 0) <= Rabs (-1 - 0).
Proof. apply (rel_pos_monotone (-1) 1 0). lra. Defined.

(** ** [CPB.forward] *)

(** X9. The bias depends on the positions only through their
    differences: moving the query positions and all key positions by the
    same amount does not change it. *)
Theorem CPB_forward_translation (p : CPB) (w : CPBW) (t : R)
    (grid_q : list R) (grid_kv : list (list R)) :
  CPB_forward p w (map (fun x => x + t) grid_q)
              (map (map (fun x => x + t)) grid_kv)
  = CPB_forward p w grid_q grid_kv.
Proof.
  unfold CPB_forward. cbv zeta. f_equal.
  rewrite !map_map. apply map_ext. intros kv.
  rewrite !map_map. apply map_ext. intros qi.
  rewrite !map_map. apply map_ext. intros kj.
  simpl. do 2 f_equal. f_equal. ring.
Qed.

Lemma length_concat_uniform {A : Type} (n : nat) (l : list (list A)) :
  (forall x, In x l -> length x = n) ->
  length (concat l) = (length l * n)%nat.
Proof.
  induction l as [|x l IH]; intros H; simpl; [reflexivity|].
  rewrite length_app, IH by (intros y Hy; apply H; right; exact Hy).
  rewrite (H x) by (left; reflexivity). reflexivity.
Qed.

Lemma length_chunks {A : Type} (g : nat) (l : list A) :
  length (chunks g l) = (length l / g)%nat.
Proof. unfold chunks. rewrite length_map, length_seq. reflexivity. Qed.

Lemma In_firstn {A : Type} (n : nat) (l : list A) (x : A) :
  In x (firstn n l) -> In x l.
Proof.
  intros H. rewrite <- (firstn_skipn n l). apply in_or_app. left. exact H.
Qed.

Lemma In_skipn {A : Type} (n : nat) (l : list A) (x : A) :
  In x (skipn n l) -> In x l.
Proof.
  intros H. rewrite <- (firstn_skipn n l). apply in_or_app. right. exact H.
Qed.

Lemma In_chunks {A : Type} (g : nat) (l : list A) (grp : list A) :
  (0 < g)%nat -> In grp (chunks g l) ->
  length grp = g /\ forall x, In x grp -> In x l.
Proof.
  intros Hg Hin. unfold chunks in Hin. apply in_map_iff in Hin.
  destruct Hin as [b [E Hb]]. apply in_seq in Hb. subst grp. split.
  - rewrite length_firstn, length_skipn.
    pose proof (Nat.Div0.mul_div_le (length l) g) as Hle.
    assert (Hbg : ((b + 1) * g <= length l)%nat).
    { apply Nat.le_trans with (g * (length l / g))%nat; [nia | exact Hle]. }
    lia.
  - intros x Hx. apply In_firstn in Hx. apply In_skipn in Hx. exact Hx.
Qed.

(** X10. [CPB.forward] raises when the rows of key positions cannot be cut
    into groups of [offset_groups]; otherwise the bias has one block per
    batch element, [offset_groups] times the number of outputs of the bias
    network planes per block, and one row per query position in every
    plane. *)
Theorem CPB_forward_dims (p : CPB) (w : CPBW) (grid_q : list R)
    (grid_kv : list (list R)) :
  let G := Z.to_nat (cpb_offset_groups p) in
  let O := length (bias (last w)) in
  (G = 0%nat \/ (length grid_kv mod G)%nat <> 0%nat ->
   CPB_forward p w grid_q grid_kv = Raise EinopsError) /\
  (forall bias_t, CPB_forward p w grid_q grid_kv = Ok bias_t ->
     length bias_t = (length grid_kv / G)%nat /\
     forall pb, In pb bias_t ->
       length pb = (G * O)%nat /\
       forall ph, In ph pb -> length ph = length grid_q).
Proof.
  intros G O. unfold CPB_forward. cbv zeta. fold G. fold O.
  unfold rearrange_bias. rewrite !length_map. split.
  - intros H.
    replace ((0 <? G)%nat && (length grid_kv mod G =? 0)%nat) with false;
      [reflexivity|].
    symmetry. apply andb_false_iff. destruct H as [H|H].
    + left. apply Nat.ltb_ge. lia.
    + right. apply Nat.eqb_neq. exact H.
  - intros bias_t H. apply require_inv in H. destruct H as [Hreq H].
    apply andb_prop in Hreq. destruct Hreq as [Hg _].
    apply Nat.ltb_lt in Hg. injection H as H. subst bias_t. split.
    + rewrite length_map, length_chunks, !length_map. reflexivity.
    + intros pb Hpb. apply in_map_iff in Hpb. destruct Hpb as [grp [E Hgrp]].
      subst pb. destruct (In_chunks G _ grp Hg Hgrp) as [Hlen Hsub]. split.
      * rewrite (length_concat_uniform O).
        -- rewrite length_map, Hlen. reflexivity.
        -- intros x Hx. apply in_map_iff in Hx. destruct Hx as [y [Ey _]].
           subst x. apply length_move_last_first.
      * intros ph Hph. apply in_concat in Hph.
        destruct Hph as [planes [Hplanes Hph]].
        apply in_map_iff in Hplanes. destruct Hplanes as [tg [Etg Htg]].
        subst planes. unfold move_last_first in Hph.
        apply in_map_iff in Hph. destruct Hph as [c [Ec _]]. subst ph.
        rewrite length_map.
        apply Hsub in Htg.
        apply in_map_iff in Htg. destruct Htg as [t1 [E1 Ht1]]. subst tg.
        apply in_map_iff in Ht1. destruct Ht1 as [t2 [E2 Ht2]]. subst t1.
        apply in_map_iff in Ht2. destruct Ht2 as [kv [E3 _]]. subst t2.
        rewrite !length_map. reflexivity.
Qed.

Lemma grid_sample_1d_dims_witness :
  grid_sample_1d [[[1; 2]]] [] = Raise RuntimeError /\
  length (value_of [] (grid_sample_1d [[[1; 2]]] [[0; 1; 2]]))
  = length [[[1; 2]]].
Proof.
  split.
  - apply (proj1 (grid_sample_1d_dims [[[1; 2]]] [])). discriminate.
  - apply (proj2 (grid_sample_1d_dims [[[1; 2]]] [[0; 1; 2]])).
    rewrite grid_sample_1d_eq by reflexivity. reflexivity.
Defined.

Lemma CPB_forward_dims_witness :
  CPB_forward (rel_pos_bias (module_of per_head_config 2)) per_head_weights
              [0] [[0]; [1]; [2]]
  = Raise EinopsError.
Proof.
  apply (proj1 (CPB_forward_dims (rel_pos_bias (module_of per_head_config 2))
                  per_head_weights [0] [[0]; [1]; [2]])).
  right. simpl. discriminate.
Defined.

(** ** The offset network on values *)

Lemma for_each_Forall2 {A B : Type} (f : A -> result B) (xs : list A)
    (ys : list B) :
  for_each f xs = Ok ys -> Forall2 (fun x y => f x = Ok y) xs ys.
Proof.
  revert ys. induction xs as [|x xs IH]; intros ys H; simpl in H.
  - injection H as H. subst ys. constructor.
  - apply bind_Ok in H. destruct H as [y [Hy H]].
    apply bind_Ok in H. destruct H as [ys' [Hys H]].
    injection H as H. subst ys. constructor; [exact Hy | apply IH; exact Hys].
Qed.

Lemma Forall2_nth_error {A B : Type} (R : A -> B -> Prop) (xs : list A)
    (ys : list B) (n : nat) (x : A) :
  Forall2 R xs ys -> nth_error xs n = Some x ->
  exists y, nth_error ys n = Some y /\ R x y.
Proof.
  intros H. revert n. induction H as [|a b xs ys Hab _ IH]; intros n Hn.
  - destruct n; discriminate.
  - destruct n as [|n]; simpl in *.
    + injection Hn as Hn. subst a. exists b. split; [reflexivity | exact Hab].
    + apply IH. exact Hn.
Qed.

Lemma length_transpose (t : list (list R)) : length (transpose t) = ncols t.
Proof. unfold transpose. rewrite length_map, length_seq. reflexivity. Qed.

Lemma In_transpose (t : list (list R)) (row : list R) :
  In row (transpose t) -> length row = length t.
Proof.
  unfold transpose. intros H. apply in_map_iff in H.
  destruct H as [j [E _]]. subst row. apply length_map.
Qed.

Lemma ncols_rows {A : Type} (t : list (list A)) (n : nat) :
  t <> [] -> (forall row, In row t -> length row = n) -> ncols t = n.
Proof.
  intros Hne H. destruct t as [|r t']; [contradiction|].
  simpl. apply H. left. reflexivity.
Qed.

Lemma conv_checks_inv (c : Conv1d) (x : list (list R)) (u : unit) :
  conv_checks c x = Ok u ->
  (0 <= padding c)%Z /\ (0 < stride c)%Z /\
  Z.of_nat (length x) = in_channels c /\
  (kernel_size c <= Z.of_nat (ncols x) + 2 * padding c)%Z.
Proof.
  unfold conv_checks. intros H.
  apply require_inv in H. destruct H as [H1 H].
  apply require_inv in H. destruct H as [H2 H].
  apply require_inv in H. destruct H as [H3 H].
  unfold require in H.
  destruct (Z.leb_spec (kernel_size c)
              (Z.of_nat (ncols x) + 2 * padding c)) as [H4|_];
    [|discriminate].
  apply Z.leb_le in H1. apply Z.ltb_lt in H2. apply Z.eqb_eq in H3.
  repeat split; assumption.
Qed.

(** X11. The offset network on values. When [to_offsets] returns, it
    returns one row of offsets per element of its input; the number of
    positions of that element (its last axis) equals the number of channels
    of an offset group, [dim_head * heads // offset_groups], because the
    network exchanges the two axes of an input that is already laid out
    channels first; and the row has [floor(d / downsample_factor)] offsets,
    [d] being the size of the element's first axis. *)
Theorem to_offsets_dims (gelu : R -> R) (c : Config)
    (m : DeformableAttention1D) (w : OffsetWeights)
    (x : list (list (list R))) (offsets : list (list R)) :
  let od := (dim_head c * heads c / default (offset_groups c) (heads c))%Z in
  init c = Ok m ->
  Z.of_nat (length (dw_weight w)) = od ->
  Z.of_nat (length (dw_bias w)) = od ->
  to_offsets gelu m w x = Ok offsets ->
  length offsets = length x /\
  forall b xb row,
    nth_error x b = Some xb -> nth_error offsets b = Some row ->
    Z.of_nat (ncols xb) = od /\
    length row = Z.to_nat (Z.of_nat (length xb) / downsample_factor c).
Proof.
  intros od Hi Hw Hb H.
  destruct (init_inv c m Hi) as [Em [_ [Hdh [Hh [Hg [Hmod [Heven _]]]]]]].
  set (g := default (offset_groups c) (heads c)) in *.
  destruct (offset_dims_pos (dim_head c) (heads c) g Hdh Hh Hg Hmod)
    as [Hod _]. fold od in Hod.
  subst m. unfold to_offsets in H. simpl conv_dw in H. simpl conv_pw in H.
  simpl scale_offsets in H. fold od in H.
  set (dw := {| in_channels := od; out_channels := od;
                kernel_size := offset_kernel_size c; groups := od;
                stride := downsample_factor c;
                padding := ((offset_kernel_size c - downsample_factor c) / 2)%Z
             |}) in *.
  set (pw := {| in_channels := od; out_channels := 1; kernel_size := 1;
                groups := 1; stride := 1; padding := 0 |}) in *.
  apply bind_Ok in H. destruct H as [x2 [H2 H]].
  apply bind_Ok in H. destruct H as [x4 [H4 H]].
  apply bind_Ok in H. destruct H as [x5 [H5 H]].
  injection H as H. subst offsets.
  apply for_each_Forall2 in H2. apply for_each_Forall2 in H4.
  apply for_each_Forall2 in H5.
  split.
  { unfold Scale_forward, Tanh_forward. rewrite !length_map.
    rewrite <- (Forall2_length H5), <- (Forall2_length H4), length_map.
    rewrite <- (Forall2_length H2), length_map. reflexivity. }
  intros b xb row Hxb Hrow.
  assert (Ht : nth_error (map transpose x) b = Some (transpose xb))
    by (rewrite nth_error_map, Hxb; reflexivity).
  destruct (Forall2_nth_error _ _ _ _ _ H2 Ht) as [y2 [Hy2 Hconv]].
  assert (Hy3 : nth_error (map (map (map gelu)) x2) b
                = Some (map (map gelu) y2))
    by (rewrite nth_error_map, Hy2; reflexivity).
  destruct (Forall2_nth_error _ _ _ _ _ H4 Hy3) as [y4 [Hy4 Hpw]].
  destruct (Forall2_nth_error _ _ _ _ _ H5 Hy4) as [r5 [Hr5 Hsq]].
  unfold Scale_forward, Tanh_forward in Hrow.
  rewrite !nth_error_map, Hr5 in Hrow. simpl in Hrow.
  injection Hrow as Hrow. subst row. rewrite !length_map.
  (* the depthwise convolution *)
  unfold conv_depthwise in Hconv.
  apply bind_Ok in Hconv. destruct Hconv as [u [Hchk Hconv]].
  injection Hconv as Hconv.
  apply conv_checks_inv in Hchk.
  destruct Hchk as [Hpad [Hs [Hch Hfit]]]. simpl in Hpad, Hs, Hch, Hfit.
  rewrite length_transpose in Hch.
  split; [exact Hch|].
  assert (Hne : transpose xb <> []).
  { intros E. apply (f_equal (@length _)) in E.
    rewrite length_transpose in E. simpl in E. lia. }
  assert (Hcols : ncols (transpose xb) = length xb)
    by (apply ncols_rows; [exact Hne | apply In_transpose]).
  rewrite Hcols in Hfit.
  assert (Hks : (downsample_factor c <= offset_kernel_size c)%Z).
  { destruct (Z.le_gt_cases (downsample_factor c) (offset_kernel_size c))
      as [L|L]; [exact L|].
    assert ((offset_kernel_size c - downsample_factor c) / 2 < 0)%Z
      by (apply Z.div_lt_upper_bound; lia). lia. }
  set (L := Z.to_nat (Z.of_nat (length xb) / downsample_factor c)).
  assert (Hrows : forall r, In r y2 -> length r = L).
  { intros r Hr. subst y2. apply in_map_iff in Hr.
    destruct Hr as [[row_t [wt bs]] [E Hin]]. subst r.
    apply in_combine_l in Hin. apply In_transpose in Hin. simpl.
    pose proof (length_conv_channel dw wt bs row_t) as Hlc.
    unfold dw in Hlc. cbn [kernel_size stride padding] in Hlc.
    rewrite Hin in Hlc.
    rewrite conv_out_len_floor in Hlc by assumption.
    apply Nat2Z.inj. rewrite Hlc; [|lia|assumption|assumption|assumption].
    unfold L. rewrite Z2Nat.id; [reflexivity|].
    apply Z.div_pos; lia. }
  assert (Hy2ne : y2 <> []).
  { subst y2. intros E. apply (f_equal (@length _)) in E.
    rewrite length_map, !length_combine, length_transpose in E.
    simpl in E. lia. }
  (* the pointwise convolution *)
  unfold conv_pointwise in Hpw.
  apply bind_Ok in Hpw. destruct Hpw as [u' [_ Hpw]].
  injection Hpw as Hpw. subst y4. simpl in Hsq. injection Hsq as Hsq.
  subst r5. rewrite length_map, length_transpose.
  apply ncols_rows.
  - intros E. apply Hy2ne. destruct y2; [reflexivity | discriminate].
  - intros r Hr. apply in_map_iff in Hr. destruct Hr as [r0 [E Hr0]].
    subst r. rewrite length_map. apply Hrows. exact Hr0.
Qed.

Lemma to_offsets_dims_witness :
  length [[round32
            (tanh (dot [1; 1] [dot [1; 0] [1; 3] + 0; dot [0; 1] [2; 4] + 0]))
          * 4]]
  = length two_feats /\
  forall b xb row,
    nth_error two_feats b = Some xb ->
    nth_error
      [[round32
          (tanh (dot [1; 1] [dot [1; 0] [1; 3] + 0; dot [0; 1] [2; 4] + 0]))
        * 4]]
      b = Some row ->
    Z.of_nat (ncols xb)
    = (dim_head two_config * heads two_config
       / default (offset_groups two_config) (heads two_config))%Z /\
    length row
    = Z.to_nat (Z.of_nat (length xb) / downsample_factor two_config).
Proof.
  apply (to_offsets_dims (fun x => x) two_config (module_of two_config 1)
           two_weights two_feats _ init_two).
  - reflexivity.
  - reflexivity.
  - exact to_offsets_two.
Defined.

(** ** Which inputs a module accepts *)

Lemma CPB_forward_shape_witness :
  Shape.CPB_forward (rel_pos_bias (module_of default_512 8)) [64%Z]
    [(1 * default (offset_groups default_512) (heads default_512))%Z; 16%Z]
  = Ok [1%Z; heads default_512; 64%Z; 16%Z].
Proof.
  apply (CPB_forward_shape default_512 (module_of default_512 8) 1 64 16).
  exact init_default_512.
Defined.

(** X13. A module returns from a forward call on an input of shape
    [(b, n, d)] exactly when [d = dim = dim_head * heads], the input has
    [n = dim_head * heads // offset_groups] positions, at least
    [downsample_factor] of them, the batch is not empty, and the stride is
    positive and not longer than the kernel. *)
Theorem forward_accepts_iff (c : Config) (m : DeformableAttention1D)
    (b n d : Z) (rv : bool) :
  init c = Ok m ->
  let g := default (offset_groups c) (heads c) in
  (exists r, Shape.forward m [b; n; d] rv = Ok r) <->
  (d = dim c /\ dim c = dim_head c * heads c /\
   n = dim_head c * heads c / g /\ 0 < b /\ 0 < downsample_factor c /\
   downsample_factor c <= offset_kernel_size c /\
   downsample_factor c <= n)%Z.
Proof.
  intros Hi g. split.
  - intros [[out vg] H].
    destruct (forward_inv c m b n d rv out vg Hi H)
      as [H1 [H2 [H3 [H4 [H5 [H6 [H7 _]]]]]]].
    repeat split; assumption.
  - intros [H1 [H2 [H3 [H4 [H5 [H6 H7]]]]]]. subst d.
    eexists. apply (forward_Ok c m b n rv Hi H2 H3 H4 H5 H6 H7).
Qed.

Lemma forward_accepts_iff_witness :
  (exists r, Shape.forward (module_of default_512 8) [1; 64; 512]%Z true
             = Ok r) <->
  (512 = dim default_512 /\
   dim default_512 = dim_head default_512 * heads default_512 /\
   64 = dim_head default_512 * heads default_512
        / default (offset_groups default_512) (heads default_512) /\
   0 < 1 /\ 0 < downsample_factor default_512 /\
   downsample_factor default_512 <= offset_kernel_size default_512 /\
   downsample_factor default_512 <= 64)%Z.
Proof.
  apply (forward_accepts_iff default_512 (module_of default_512 8)
           1 64 512 true).
  exact init_default_512.
Defined.

(** X14. A forward call on an input whose rank is not 3 raises. *)
Theorem forward_rejects_rank (m : DeformableAttention1D) (x : shape)
    (rv : bool) :
  length x <> 3%nat -> exists e, Shape.forward m x rv = Raise e.
Proof.
  intros Hlen. destruct (Shape.forward m x rv) as [r|e] eqn:E.
  - exfalso. destruct (forward_rank m x rv r E) as [b [n [d Ex]]].
    subst x. apply Hlen. reflexivity.
  - exists e. reflexivity.
Qed.

Lemma forward_rejects_rank_witness :
  exists e, Shape.forward (module_of default_512 8) [64; 512]%Z false
            = Raise e.
Proof.
  apply (forward_rejects_rank (module_of default_512 8) [64; 512]%Z false).
  simpl. lia.
Defined.

Lemma forward_keeps_shape_witness :
  [1; 64; 512]%Z = [1; 64; 512]%Z /\
  exists b n d, [1; 64; 512]%Z = [b; n; d] /\
    Some [8; 16]%Z
    = (if true
       then Some [(b * default (offset_groups default_512)
                                 (heads default_512))%Z;
                  (n / downsample_factor default_512)%Z]
       else None).
Proof.
  apply (forward_keeps_shape default_512 (module_of default_512 8)
           [1; 64; 512]%Z true [1; 64; 512]%Z (Some [8; 16]%Z)).
  - exact init_default_512.
  - reflexivity.
Defined.

(** ** The constructor, continued *)

Lemma init_offset_groups_zero_witness :
  init {| dim := 16; dim_head := 4; heads := 2; dropout := 0;
          downsample_factor := 2; offset_scale := 4;
          offset_groups := Some 0%Z; offset_kernel_size := 6 |}
  = Raise ZeroDivisionError.
Proof.
  apply (init_offset_groups_zero
           {| dim := 16; dim_head := 4; heads := 2; dropout := 0;
              downsample_factor := 2; offset_scale := 4;
              offset_groups := Some 0%Z; offset_kernel_size := 6 |});
    reflexivity.
Defined.

(** X15. A module the constructor returns has positive [dim_head], [heads]
    and [offset_groups]; it keeps [heads], the resolved [offset_groups]
    (the given one, or [heads]), [downsample_factor] and [offset_scale], and
    its depthwise convolution has [dim_head * heads // offset_groups]
    channels, the stride [downsample_factor] and the padding
    [(offset_kernel_size - downsample_factor) // 2]. *)
Theorem init_module (c : Config) (m : DeformableAttention1D) :
  init c = Ok m ->
  let g := default (offset_groups c) (heads c) in
  (0 < dim_head c /\ 0 < heads c /\ 0 < g)%Z /\
  self_heads m = heads c /\ self_offset_groups m = g /\
  self_downsample_factor m = downsample_factor c /\
  scale_offsets m = offset_scale c /\
  in_channels (conv_dw m) = (dim_head c * heads c / g)%Z /\
  stride (conv_dw m) = downsample_factor c /\
  padding (conv_dw m)
  = ((offset_kernel_size c - downsample_factor c) / 2)%Z.
Proof.
  intros Hi g.
  destruct (init_inv c m Hi) as [Em [_ [Hdh [Hh [Hg _]]]]].
  fold g in Em, Hg. subst m. simpl.
  repeat split; try assumption; reflexivity.
Qed.

Lemma init_module_witness :
  (0 < dim_head default_512 /\ 0 < heads default_512 /\
   0 < default (offset_groups default_512) (heads default_512))%Z /\
  self_heads (module_of default_512 8) = heads default_512 /\
  self_offset_groups (module_of default_512 8)
  = default (offset_groups default_512) (heads default_512) /\
  self_downsample_factor (module_of default_512 8)
  = downsample_factor default_512 /\
  scale_offsets (module_of default_512 8) = offset_scale default_512 /\
  in_channels (conv_dw (module_of default_512 8))
  = (dim_head default_512 * heads default_512
     / default (offset_groups default_512) (heads default_512))%Z /\
  stride (conv_dw (module_of default_512 8)) = downsample_factor default_512
  /\ padding (conv_dw (module_of default_512 8))
     = ((offset_kernel_size default_512 - downsample_factor default_512)
        / 2)%Z.
Proof.
  apply (init_module default_512 (module_of default_512 8)).
  exact init_default_512.
Defined.
